(** * Bili: option marshalling for a bundling engine

    A shallow embedding of [src/index.js]: the JavaScript values the
    options object holds, the string and path primitives the code calls,
    and the functions [getSuffix], [getNameFromInput], [getFilename],
    [handleLoadPluginError], [Bili.getArrayOption], [Bili.loadUserPlugins],
    [Bili.createConfig] and [Bili.bundle], followed by [Bili.stats],
    [Bili.generate], [Bili.write], the warning handler of [createConfig]
    and [getJsOptions]. *)

From Stdlib Require Import ZArith Ascii DecimalString.
From Stdlib Require String.
From stdpp Require Import base gmap strings list fin_maps sorting.

Local Open Scope Z_scope.
Set Warnings "-register-all,-clear-no-such-hyp".

(** ** JavaScript values *)

(** The values an options object can hold.  Object fields are listed in
    property enumeration order, which is what [Object.keys] returns. *)
Inductive JsVal : Type :=
  | VUndefined
  | VNull
  | VBool (b : bool)
  | VNum (n : Z)
  | VStr (s : string)
  | VArr (l : list JsVal)
  | VObj (fields : list (string * JsVal)).

(** Modelled from the spec: the configuration error [BiliError] of
    [./bili-error], which is not part of the source at hand: an error that
    carries a human-readable message and no [code].  Every other thrown
    value is a [JsError]: an error object with its constructor name, its
    optional [code] and its [message]. *)
Inductive Exn : Type :=
  | BiliError (msg : string)
  | JsError (kind : string) (code : option string) (message : string).

Definition exn_code (e : Exn) : option string :=
  match e with
  | BiliError _ => None
  | JsError _ c _ => c
  end.

Definition exn_message (e : Exn) : string :=
  match e with
  | BiliError m => m
  | JsError _ _ m => m
  end.

(** A computation that returns or throws. *)
Inductive Result (A : Type) : Type :=
  | Ok (a : A)
  | Throw (e : Exn).
Arguments Ok {A} a.
Arguments Throw {A} e.

#[global] Instance Result_ret : MRet Result := @Ok.
#[global] Instance Result_bind : MBind Result := fun A B f r =>
  match r with
  | Ok a => f a
  | Throw e => Throw e
  end.

Definition TypeError {A} (msg : string) : Result A :=
  Throw (JsError "TypeError" None msg).

Fixpoint mapR {A B} (f : A → Result B) (l : list A) : Result (list B) :=
  match l with
  | [] => Ok []
  | x :: xs => y ← f x; ys ← mapR f xs; Ok (y :: ys)
  end.

Module Js.

(** [Boolean(v)] *)
Definition truthy (v : JsVal) : bool :=
  match v with
  | VUndefined | VNull => false
  | VBool b => b
  | VNum n => negb (n =? 0)
  | VStr s => negb (String.eqb s "")
  | VArr _ | VObj _ => true
  end.

(** [a || b] *)
Definition or (a b : JsVal) : JsVal := if truthy a then a else b.

(** [a && b] *)
Definition and (a b : JsVal) : JsVal := if truthy a then b else a.

Inductive TypeTag := TUndefined | TObject | TBoolean | TNumber | TString.

(** [typeof v] *)
Definition typeof (v : JsVal) : TypeTag :=
  match v with
  | VUndefined => TUndefined
  | VNull | VArr _ | VObj _ => TObject
  | VBool _ => TBoolean
  | VNum _ => TNumber
  | VStr _ => TString
  end.

(** [v === s] for a string literal [s] *)
Definition is_str (v : JsVal) (s : string) : bool :=
  match v with VStr s' => String.eqb s' s | _ => false end.

Definition is_array (v : JsVal) : bool :=
  match v with VArr _ => true | _ => false end.

Definition num_to_string (n : Z) : string :=
  NilEmpty.string_of_int (Z.to_int n).

Fixpoint join (sep : string) (l : list string) : string :=
  match l with
  | [] => ""
  | [x] => x
  | x :: xs => x +:+ sep +:+ join sep xs
  end.

(** [String(v)], the conversion a template literal applies. *)
Fixpoint to_string (v : JsVal) : string :=
  match v with
  | VUndefined => "undefined"
  | VNull => "null"
  | VBool true => "true"
  | VBool false => "false"
  | VNum n => num_to_string n
  | VStr s => s
  | VArr l =>
      join "," (map (fun x => match x with
                              | VUndefined | VNull => ""
                              | _ => to_string x
                              end) l)
  | VObj _ => "[object Object]"
  end.

(** [o[key]] on an object given as a finite map. *)
Definition get (o : gmap string JsVal) (key : string) : JsVal :=
  default VUndefined (o !! key).

(** [Object.keys(v)] *)
Definition keys (v : JsVal) : Result (list string) :=
  match v with
  | VObj fields => Ok (fields.*1)
  | VArr l => Ok (map (fun i => num_to_string (Z.of_nat i)) (seq 0 (length l)))
  | VStr s =>
      Ok (map (fun i => num_to_string (Z.of_nat i)) (seq 0 (String.length s)))
  | VBool _ | VNum _ => Ok []
  | VUndefined | VNull =>
      TypeError "Cannot convert undefined or null to object"
  end.

(** The own enumerable properties that [{...v}] copies. *)
Definition spread_fields (v : JsVal) : list (string * JsVal) :=
  match v with
  | VObj fields => fields
  | VArr l => zip (map (fun i => num_to_string (Z.of_nat i)) (seq 0 (length l))) l
  | VStr s =>
      zip (map (fun i => num_to_string (Z.of_nat i)) (seq 0 (String.length s)))
          (map (fun c => VStr (String c "")) (String.list_ascii_of_string s))
  | _ => []
  end.

(** Assignment of one property to an object literal under construction:
    an existing key keeps its position and takes the new value. *)
Fixpoint set_field (k : string) (v : JsVal) (fields : list (string * JsVal))
  : list (string * JsVal) :=
  match fields with
  | [] => [(k, v)]
  | (k', v') :: rest =>
      if String.eqb k k' then (k, v) :: rest
      else (k', v') :: set_field k v rest
  end.

(** [{...base, ...over}] on field lists with distinct keys.  Integer-like
    keys, which JavaScript enumerates first, are left where they are
    assigned. *)
Definition assign (base over : list (string * JsVal)) : list (string * JsVal) :=
  fold_left (fun acc kv => set_field kv.1 kv.2 acc) over base.

End Js.

(** ** String primitives *)

Module Str.

Definition slash : ascii := "/"%char.
Definition dot : ascii := "."%char.
Definition comma : ascii := ","%char.

(** [s.startsWith(p)] *)
Fixpoint startsWith (s p : string) {struct p} : bool :=
  match p, s with
  | EmptyString, _ => true
  | String a p', String b s' => Ascii.eqb a b && startsWith s' p'
  | String _ _, EmptyString => false
  end.

(** [s.includes(sub)] *)
Fixpoint includes (s sub : string) : bool :=
  startsWith s sub ||
  match s with
  | EmptyString => false
  | String _ s' => includes s' sub
  end.

(** [s.endsWith(suf)]: some tail of [s] is [suf]. *)
Fixpoint endsWith (s suf : string) : bool :=
  String.eqb s suf ||
  match s with
  | EmptyString => false
  | String _ s' => endsWith s' suf
  end.

(** [s.slice(start, end)] for indices within the string. *)
Definition slice (s : string) (from to : Z) : string :=
  String.substring (Z.to_nat from) (Z.to_nat (to - from)) s.

(** [s.split(sep)] for a one-character separator: the pieces between
    separators, never an empty list. *)
Fixpoint split (sep : ascii) (s : string) : list string :=
  match s with
  | EmptyString => [EmptyString]
  | String c s' =>
      if Ascii.eqb c sep then EmptyString :: split sep s'
      else match split sep s' with
           | [] => [String c EmptyString]
           | piece :: rest => String c piece :: rest
           end
  end.

(** [s.replace(/-min$/, '')]: the pattern is anchored at the end of the
    string, so the only candidate match is the last four characters. *)
Fixpoint replace_min_suffix (s : string) : string :=
  match s with
  | EmptyString => EmptyString
  | String c s' =>
      if String.eqb s "-min" then EmptyString
      else String c (replace_min_suffix s')
  end.

(** Does [s] contain the character [c]? *)
Fixpoint has_char (c : ascii) (s : string) : bool :=
  match s with
  | EmptyString => false
  | String a s' => Ascii.eqb a c || has_char c s'
  end.

(** [s.replace(/\.[^.]+$/, repl)]: a dot followed by one or more non-dot
    characters up to the end of the string. *)
Fixpoint replace_last_ext (s repl : string) : string :=
  match s with
  | EmptyString => EmptyString
  | String c s' =>
      if Ascii.eqb c dot && negb (String.eqb s' "") && negb (has_char dot s')
      then repl
      else String c (replace_last_ext s' repl)
  end.

End Str.

(** ** Node's [path] module (POSIX flavour)

    [basename] and [extname] follow the library's right-to-left scans,
    index by index; [resolve] and [relative] are given by their effect on
    the list of path segments. *)

Module Path.

Definition char_at (s : string) (i : nat) : ascii :=
  default Ascii.zero (String.get i s).

(** The scan of [basename(path, ext)] when [ext] is non-empty and not
    longer than [path].  [n] is the number of indices still to visit;
    the index visited now is [n - 1].  Returns [(start, end,
    firstNonSlashEnd)]. *)
Fixpoint basename_ext_scan (path ext : string) (n : nat)
    (start end_ : Z) (matchedSlash : bool) (extIdx firstNonSlashEnd : Z)
  : Z * Z * Z :=
  match n with
  | O => (start, end_, firstNonSlashEnd)
  | S i =>
      let code := char_at path i in
      if Ascii.eqb code Str.slash then
        if negb matchedSlash then (Z.of_nat i + 1, end_, firstNonSlashEnd)
        else basename_ext_scan path ext i start end_ matchedSlash extIdx
                               firstNonSlashEnd
      else
        let '(matchedSlash, firstNonSlashEnd) :=
          if firstNonSlashEnd =? -1 then (false, Z.of_nat i + 1)
          else (matchedSlash, firstNonSlashEnd) in
        let '(extIdx, end_) :=
          if 0 <=? extIdx then
            if Ascii.eqb code (char_at ext (Z.to_nat extIdx)) then
              if extIdx - 1 =? -1 then (extIdx - 1, Z.of_nat i)
              else (extIdx - 1, end_)
            else (-1, firstNonSlashEnd)
          else (extIdx, end_) in
        basename_ext_scan path ext i start end_ matchedSlash extIdx
                          firstNonSlashEnd
  end.

(** The scan of [basename(path)] without a usable [ext].  Returns
    [(start, end)]. *)
Fixpoint basename_scan (path : string) (n : nat)
    (start end_ : Z) (matchedSlash : bool) : Z * Z :=
  match n with
  | O => (start, end_)
  | S i =>
      if Ascii.eqb (char_at path i) Str.slash then
        if negb matchedSlash then (Z.of_nat i + 1, end_)
        else basename_scan path i start end_ matchedSlash
      else if end_ =? -1 then basename_scan path i start (Z.of_nat i + 1) false
      else basename_scan path i start end_ matchedSlash
  end.

(** [path.basename(p, ext)] *)
Definition basename (p ext : string) : string :=
  let plen := String.length p in
  let elen := String.length ext in
  if (0 <? elen)%nat && (elen <=? plen)%nat then
    if String.eqb ext p then ""
    else
      let '(start, end_, firstNonSlashEnd) :=
        basename_ext_scan p ext plen 0 (-1) true (Z.of_nat elen - 1) (-1) in
      let end_ :=
        if start =? end_ then firstNonSlashEnd
        else if end_ =? -1 then Z.of_nat plen
        else end_ in
      Str.slice p start end_
  else
    let '(start, end_) := basename_scan p plen 0 (-1) true in
    if end_ =? -1 then "" else Str.slice p start end_.

(** The scan of [extname(path)].  Returns [(startDot, startPart, end,
    preDotState)]. *)
Fixpoint extname_scan (path : string) (n : nat)
    (startDot startPart end_ : Z) (matchedSlash : bool) (preDotState : Z)
  : Z * Z * Z * Z :=
  match n with
  | O => (startDot, startPart, end_, preDotState)
  | S i =>
      let code := char_at path i in
      if Ascii.eqb code Str.slash then
        if negb matchedSlash
        then (startDot, Z.of_nat i + 1, end_, preDotState)
        else extname_scan path i startDot startPart end_ matchedSlash
                          preDotState
      else
        let '(matchedSlash, end_) :=
          if end_ =? -1 then (false, Z.of_nat i + 1)
          else (matchedSlash, end_) in
        let '(startDot, preDotState) :=
          if Ascii.eqb code Str.dot then
            if startDot =? -1 then (Z.of_nat i, preDotState)
            else if negb (preDotState =? 1) then (startDot, 1)
            else (startDot, preDotState)
          else if negb (startDot =? -1) then (startDot, -1)
          else (startDot, preDotState) in
        extname_scan path i startDot startPart end_ matchedSlash preDotState
  end.

(** [path.extname(p)] *)
Definition extname (p : string) : string :=
  let '(startDot, startPart, end_, preDotState) :=
    extname_scan p (String.length p) (-1) 0 (-1) true 0 in
  if (startDot =? -1) || (end_ =? -1) || (preDotState =? 0) ||
     ((preDotState =? 1) && (startDot =? end_ - 1) &&
      (startDot =? startPart + 1))
  then ""
  else Str.slice p startDot end_.

(** Segment normalisation: empty and [.] segments vanish, [..] removes
    the segment before it; above the root it is dropped for an absolute
    path and kept for a relative one.  [stack] holds the segments kept so
    far, last one first. *)
Fixpoint normalize_segments (allowAboveRoot : bool)
    (stack segs : list string) : list string :=
  match segs with
  | [] => rev stack
  | seg :: rest =>
      if String.eqb seg "" || String.eqb seg "." then
        normalize_segments allowAboveRoot stack rest
      else if String.eqb seg ".." then
        match stack with
        | top :: below =>
            if String.eqb top ".." then
              normalize_segments allowAboveRoot
                (if allowAboveRoot then ".." :: stack else stack) rest
            else normalize_segments allowAboveRoot below rest
        | [] =>
            normalize_segments allowAboveRoot
              (if allowAboveRoot then [".."] else []) rest
        end
      else normalize_segments allowAboveRoot (seg :: stack) rest
  end.

(** The right-to-left accumulation of [resolve]: stops at the first
    absolute argument. *)
Fixpoint resolve_collect (rev_args : list string) (resolvedPath : string)
  : string * bool :=
  match rev_args with
  | [] => (resolvedPath, false)
  | p :: rest =>
      if String.eqb p "" then resolve_collect rest resolvedPath
      else
        let resolvedPath := p +:+ "/" +:+ resolvedPath in
        if Str.startsWith p "/" then (resolvedPath, true)
        else resolve_collect rest resolvedPath
  end.

(** [path.resolve(...args)] in a process whose working directory is
    [cwd]. *)
Definition resolve (cwd : string) (args : list string) : string :=
  let '(resolvedPath, resolvedAbsolute) :=
    resolve_collect (rev args ++ [cwd]) "" in
  let normalized :=
    Js.join "/" (normalize_segments (negb resolvedAbsolute) []
                                    (Str.split Str.slash resolvedPath)) in
  if resolvedAbsolute then "/" +:+ normalized
  else if String.eqb normalized "" then "." else normalized.

Definition segments (p : string) : list string :=
  filter (fun seg => seg ≠ "") (Str.split Str.slash p).

Fixpoint drop_common (a b : list string) : list string * list string :=
  match a, b with
  | x :: a', y :: b' => if String.eqb x y then drop_common a' b' else (a, b)
  | _, _ => (a, b)
  end.

(** [path.relative(from, to)] *)
Definition relative (cwd from to : string) : string :=
  if String.eqb from to then ""
  else
    let from := resolve cwd [from] in
    let to := resolve cwd [to] in
    if String.eqb from to then ""
    else
      let '(up, down) := drop_common (segments from) (segments to) in
      Js.join "/" (replicate (length up) ".." ++ down).

End Path.

(** ** The filename templater *)

(** Modelled from the spec: token recognition for [template] (the
    templater of [./template], absent from the source at hand): the first
    substitution key whose token [[key]] starts the string. *)
Fixpoint find_token (subs : list (string * string)) (s : string)
  : option (string * string) :=
  match subs with
  | [] => None
  | (key, value) :: rest =>
      if Str.startsWith s ("[" +:+ key +:+ "]") then Some (key, value)
      else find_token rest s
  end.

(** Modelled from the spec: the left-to-right pass of [template]; [skip]
    counts the characters of a replaced token still to pass over. *)
Fixpoint template_from (subs : list (string * string)) (skip : nat)
    (s : string) : string :=
  match s with
  | EmptyString => EmptyString
  | String c rest =>
      match skip with
      | S k => template_from subs k rest
      | O =>
          match find_token subs s with
          | Some (key, value) =>
              value +:+ template_from subs (String.length key + 1) rest
          | None => String c (template_from subs 0 rest)
          end
      end
  end.

(** Modelled from the spec: the filename templater imported from
    [./template], which is not part of the source at hand.  Every
    occurrence of a token [[key]] whose key has a substitution is replaced
    by the value; any other text, unknown tokens included, is left
    verbatim. *)
Definition template (pattern : string) (subs : list (string * string))
  : string :=
  template_from subs 0 pattern.

(** ** Module-level functions of [index.js] *)

Definition FORMATS : JsVal := VArr [VStr "cjs"].

Definition getSuffix (format : string) : Result string :=
  let suffix := "" in
  if String.eqb format "cjs" then Ok (suffix +:+ ".cjs")
  else if String.eqb format "umd" then Ok suffix
  else if String.eqb format "es" then Ok (suffix +:+ ".m")
  else Throw (JsError "Error" None "unsupported format").

Definition getNameFromInput (input : string) : string :=
  Path.basename input (Path.extname input).

Definition expect_str (what : string) (v : JsVal) : Result string :=
  match v with
  | VStr s => Ok s
  | _ => TypeError (what +:+ " must be a string")
  end.

(** The right-to-left accumulation of [path.resolve] on arbitrary
    values: every argument it visits must be a string, and it visits none
    to the left of the last absolute one. *)
Fixpoint resolve_visit (rev_args : list JsVal) (resolvedPath : string)
  : Result (string * bool) :=
  match rev_args with
  | [] => Ok (resolvedPath, false)
  | v :: rest =>
      p ← expect_str "path" v;
      if String.eqb p "" then resolve_visit rest resolvedPath
      else
        let resolvedPath := p +:+ "/" +:+ resolvedPath in
        if Str.startsWith p "/" then Ok (resolvedPath, true)
        else resolve_visit rest resolvedPath
  end.

(** [path.resolve(...args)] on arbitrary values, in a process whose
    working directory is [cwd]: a [TypeError] when an argument it visits
    is not a string. *)
Definition path_resolve (cwd : string) (args : list JsVal) : Result string :=
  visited ← resolve_visit (rev args ++ [VStr cwd]) "";
  let normalized :=
    Js.join "/" (Path.normalize_segments (negb visited.2) []
                                         (Str.split Str.slash visited.1)) in
  Ok (if visited.2 then "/" +:+ normalized
      else if String.eqb normalized "" then "." else normalized).

Definition getFilename (input format : string) (filename : JsVal)
    (compress : bool) (name : JsVal) : Result string :=
  let name := Js.or name (VStr (getNameFromInput input)) in
  suffix ← getSuffix format;
  pattern ← expect_str "filename" filename;
  let res := template pattern [("name", Js.to_string name); ("suffix", suffix)] in
  Ok (if compress
      then Path.basename res (Path.extname res) +:+ ".min" +:+ Path.extname res
      else res).

Definition quote : string := String (ascii_of_nat 34) EmptyString.

Definition plugin_not_found_message (dim : string → string)
    (moduleName : string) : string :=
  "Cannot find plugin " +:+ quote +:+ moduleName +:+ quote +:+
  " in current directory!" +:+ String (ascii_of_nat 10) EmptyString +:+
  dim ("You may run " +:+ quote +:+ "npm install -D " +:+ moduleName +:+
       quote +:+ " to install it.").

(** [handleLoadPluginError] always throws; the result is the value thrown. *)
Definition handleLoadPluginError (dim : string → string)
    (moduleName : string) (err : Exn) : Exn :=
  if bool_decide (exn_code err = Some "MODULE_NOT_FOUND") &&
     Str.includes (exn_message err) moduleName
  then BiliError (plugin_not_found_message dim moduleName)
  else err.

(** ** The engine's view of a task *)

(** One (input file, format, compress flag) triple. *)
Record Task := mkTask {
  task_input : string;
  task_format : string;
  task_compress : bool
}.

(** What the collector plugin stores under an output path. *)
Record ArtifactRecord := mkArtifact {
  art_relative : string;
  art_input : string;
  art_format : string;
  art_compress : bool;
  art_code : string
}.

(** The entries of the plugin pipeline.  Only the collector carries data
    the build reads back: what its hook closes over, the output path, the
    [outDir] option and the task.  An entry the class instantiates itself
    is named by the module it comes from, without its option bag. *)
Inductive Plugin : Type :=
  | PModule (moduleName : string)
  | PUserObject (v : JsVal)
  | PLoaded (moduleName : string) (pluginOptions : JsVal)
  | PCollector (file : string) (outDir : JsVal) (input format : string)
               (compress : bool).

Record InputOptions := mkInputOptions {
  io_input : string;
  io_external : list string;
  io_plugins : list Plugin
}.

Record OutputOptions := mkOutputOptions {
  oo_format : string;
  oo_globals : JsVal;
  oo_name : JsVal;
  oo_file : string;
  oo_banner : JsVal;
  oo_exports : JsVal;
  oo_sourcemap : bool
}.

Record EngineConfig := mkEngineConfig {
  inputOptions : InputOptions;
  outputOptions : OutputOptions
}.

Inductive EngineCall : Type :=
  | CallRollup (i : InputOptions) (o : OutputOptions) (write : bool)
  | CallWatch (i : InputOptions) (o : OutputOptions).

(** ** Collaborators

    Everything [index.js] imports and calls but does not define. *)
Record Env := mkEnv {
  (** [process.cwd()] *)
  process_cwd : string;
  (** [globby(patterns, { cwd })] *)
  globby : JsVal → JsVal → Result (list string);
  (** [readPkg({ cwd })], already reduced to [res.pkg || {}] *)
  readPkg : JsVal → gmap string JsVal;
  camelcase : string → string;
  chalk_green : string → string;
  chalk_dim : string → string;
  (** [getDocRef] of [./handle-error] *)
  getDocRef : string → string → string;
  (** [getBanner] of [./get-banner] *)
  getBanner : JsVal → gmap string JsVal → JsVal;
  (** [require(name)]: [None] when the module loads, [Some e] when
      loading throws [e] *)
  require : string → option Exn;
  (** calling the factory a loaded module exports: [Some e] when it
      throws [e] *)
  call_plugin : string → JsVal → option Exn;
  (** [rollup(inputOptions)] followed by [write] or [generate]: the code
      strings handed to the [ongenerate] hooks when the call is fulfilled,
      or the error it is rejected with *)
  rollup : InputOptions → OutputOptions → bool → Result (list string);
  (** the code strings a watch session has handed to [ongenerate] by the
      time the deferred check of [bundle] runs *)
  watch : InputOptions → OutputOptions → list string
}.

(** An instance of the class: [this.options], [this.bundles], [this.pkg]. *)
Record Bili := mkBili {
  options : gmap string JsVal;
  bundles : gmap string ArtifactRecord;
  pkg : gmap string JsVal
}.

(** What a call of [bundle] leaves behind: its completion, the instance
    and the engine calls it started, oldest first. *)
Record Outcome := mkOutcome {
  completion : Result unit;
  instance : Bili;
  engine_calls : list EngineCall
}.

Section BiliClass.

Context (env : Env).

(** [new Bili(options)] *)
Definition new_Bili (opts : gmap string JsVal) : Bili :=
  {| options :=
       opts ∪ list_to_map [("outDir", VStr "dist");
                           ("filename", VStr "[name][suffix].js");
                           ("uglifyEs", VBool true);
                           ("cwd", VStr (process_cwd env))];
     bundles := ∅;
     pkg := ∅ |}.

Definition opt (self : Bili) (key : string) : JsVal :=
  Js.get (options self) key.

Definition getArrayOption (self : Bili) (name : string) : JsVal :=
  let option := Js.or (opt self name) (opt self (name +:+ "s")) in
  match option with
  | VStr s => VArr (VStr <$> Str.split Str.comma s)
  | _ => option
  end.

Definition resolveCwd (self : Bili) (args : list JsVal) : Result string :=
  path_resolve (process_cwd env) (opt self "cwd" :: args).

Definition relativeToProcessCwd (self : Bili) (args : list JsVal)
  : Result string :=
  to ← resolveCwd self args;
  Ok (Path.relative (process_cwd env) (process_cwd env) to).

Definition localRequire (name : string) : option Exn :=
  require env (Path.resolve (process_cwd env) ["node_modules"; name]).

(** One element of the [plugins.map(...)] of [loadUserPlugins]; [None]
    is a falsy entry, which the pipeline later filters out. *)
Definition loadUserPlugin (self : Bili) (filename : string)
    (pluginName : JsVal) : Result (option Plugin) :=
  match Js.typeof pluginName with
  | Js.TObject =>
      Ok (if Js.truthy pluginName then Some (PUserObject pluginName)
          else None)
  | _ =>
      let name := Js.to_string pluginName in
      let pluginOptions := opt self name in
      pluginOptions ←
        (if Js.is_str pluginName "vue" then
           css ← path_resolve (process_cwd env)
                   [opt self "outDir";
                    VStr (Str.replace_last_ext filename ".css")];
           Ok (VObj (Js.assign [("css", VStr css)]
                               (Js.spread_fields pluginOptions)))
         else if Js.is_str pluginName "postcss" then
           Ok (VObj (Js.assign [("extract", VBool true)]
                               (Js.spread_fields pluginOptions)))
         else Ok pluginOptions);
      let moduleName := "rollup-plugin-" +:+ name in
      match localRequire moduleName with
      | Some err => Throw (handleLoadPluginError (chalk_dim env) moduleName err)
      | None =>
          match call_plugin env moduleName pluginOptions with
          | Some err =>
              Throw (handleLoadPluginError (chalk_dim env) moduleName err)
          | None => Ok (Some (PLoaded moduleName pluginOptions))
          end
      end
  end.

Definition loadUserPlugins (self : Bili) (filename : string)
  : Result (list (option Plugin)) :=
  match Js.or (getArrayOption self "plugin") (VArr []) with
  | VArr plugins => mapR (loadUserPlugin self filename) plugins
  | _ => TypeError "plugins.map is not a function"
  end.

Definition getJsPlugin (name : JsVal) : Result string :=
  let req :=
    if Js.is_str name "babel" || Js.is_str name "buble"
    then require env else localRequire in
  let moduleName := "rollup-plugin-" +:+ Js.to_string name in
  match req moduleName with
  | None => Ok moduleName
  | Some err => Throw (handleLoadPluginError (chalk_dim env) moduleName err)
  end.

Definition getModuleName (self : Bili) : JsVal :=
  Js.or (opt self "moduleName")
    (Js.or (Js.get (pkg self) "moduleName")
       (Js.and (Js.get (pkg self) "name")
          (VStr (camelcase env (Js.to_string (Js.get (pkg self) "name")))))).

(** One element of [external.map(...)]. *)
Definition external_entry (e : JsVal) : Result string :=
  match e with
  | VStr s =>
      Ok (if Str.startsWith s "./" then Path.resolve (process_cwd env) [s]
          else s)
  | _ => TypeError "e.startsWith is not a function"
  end.

(** The [ongenerate] hook of a pipeline entry, as far as it touches
    [this.bundles]: only the collector does.  Its hook computes the
    relative path from [outDir] when it runs, and throws before it stores
    anything when [path.resolve(outDir, '..')] throws. *)
Definition ongenerate (p : Plugin) (code : string)
    (b : gmap string ArtifactRecord) : Result (gmap string ArtifactRecord) :=
  match p with
  | PCollector file outDir input format compress =>
      base ← path_resolve (process_cwd env) [outDir; VStr ".."];
      Ok (<[file := mkArtifact (Path.relative (process_cwd env) base file)
                               input format compress code]> b)
  | _ => Ok b
  end.

(** The hooks of a pipeline on one generated code, in pipeline order: a
    hook that throws ends the run, and what was stored before it stays. *)
Fixpoint run_hooks (plugins : list Plugin) (code : string)
    (b : gmap string ArtifactRecord) : gmap string ArtifactRecord :=
  match plugins with
  | [] => b
  | p :: rest =>
      match ongenerate p code b with
      | Ok b' => run_hooks rest code b'
      | Throw _ => b
      end
  end.

Definition when (cond : bool) (p : Plugin) : option Plugin :=
  if cond then Some p else None.

Definition createConfig (self : Bili) (t : Task) : Result EngineConfig :=
  let input := task_input t in
  let format := task_format t in
  let compress := task_compress t in
  let outDir := opt self "outDir" in
  let filename := opt self "filename" in
  let inline :=
    match opt self "inline" with
    | VUndefined => VBool (String.eqb format "umd")
    | v => v
    end in
  outFilename ← getFilename input format filename compress (opt self "name");
  file ← resolveCwd self [outDir; VStr outFilename];
  let jsPluginName := Js.or (opt self "js") (VStr "buble") in
  jsPlugin ← getJsPlugin jsPluginName;
  let banner := getBanner env (opt self "banner") (pkg self) in
  external ←
    match Js.or (getArrayOption self "external") (VArr []) with
    | VArr l => mapR external_entry l
    | _ => TypeError "external.map is not a function"
    end;
  let globals := Js.or (opt self "globals") (opt self "global") in
  external ←
    match Js.typeof globals with
    | Js.TObject => ks ← Js.keys globals; Ok (external ++ ks)
    | _ => Ok external
    end;
  userPlugins ← loadUserPlugins self outFilename;
  let plugins :=
    omap id
      ([Some (PModule "rollup-plugin-hashbang")] ++
       userPlugins ++
       [when (Js.is_str jsPluginName "buble") (PModule "rollup-plugin-babel");
        Some (PModule jsPlugin);
        when (Js.truthy inline) (PModule "rollup-plugin-commonjs");
        when (Js.truthy inline) (PModule "rollup-plugin-node-resolve");
        Some (PModule "rollup-plugin-json");
        when compress (PModule "rollup-plugin-uglify");
        when (Js.truthy (opt self "alias")) (PModule "rollup-plugin-alias");
        when (Js.truthy (opt self "replace")) (PModule "rollup-plugin-replace");
        Some (PCollector file outDir input format compress);
        when (Js.truthy (opt self "env")) (PModule "rollup-plugin-replace")]) in
  Ok {| inputOptions :=
          {| io_input := input;
             io_external := external;
             io_plugins := plugins |};
        outputOptions :=
          {| oo_format := format;
             oo_globals := globals;
             oo_name :=
               if String.eqb format "umd" then getModuleName self
               else VBool false;
             oo_file := file;
             oo_banner := banner;
             oo_exports := opt self "exports";
             oo_sourcemap :=
               match opt self "map" with
               | VBool b => b
               | _ => compress
               end |} |}.

(** The task list of [bundle]: for each input, one task per format. *)
Definition format_task (input : string) (format : JsVal) : Result Task :=
  match format with
  | VStr format =>
      let compress := Str.endsWith format "-min" in
      Ok {| task_input := input;
            task_format := Str.replace_min_suffix format;
            task_compress := compress |}
  | _ => TypeError "format.endsWith is not a function"
  end.

Definition build_tasks (inputFiles : list string) (formats : JsVal)
  : Result (list Task) :=
  fold_left
    (fun res input =>
       res ← res;
       tasks ←
         match formats with
         | VArr l => mapR (format_task input) l
         | _ => TypeError "formats.map is not a function"
         end;
       Ok (res ++ tasks))
    inputFiles (Ok []).

(** [formats.length] *)
Definition formats_length (formats : JsVal) : nat :=
  match formats with
  | VArr l => length l
  | _ => 0
  end.

(** The [ongenerate] hooks of a pipeline, run once per generated code. *)
Definition generate (plugins : list Plugin) (codes : list string)
    (b : gmap string ArtifactRecord) : gmap string ArtifactRecord :=
  fold_left (fun b code => run_hooks plugins code b) codes b.

Definition engine_call (watching write : bool) (c : EngineConfig)
  : EngineCall :=
  if watching then CallWatch (inputOptions c) (outputOptions c)
  else CallRollup (inputOptions c) (outputOptions c) write.

(** The join of the actions: every task's engine call, settled in task
    order; the first failure ends the join. *)
Fixpoint settle (watching write : bool) (configs : list EngineConfig)
    (b : gmap string ArtifactRecord)
  : Result unit * gmap string ArtifactRecord :=
  match configs with
  | [] => (Ok (), b)
  | c :: rest =>
      if watching then
        settle watching write rest
          (generate (io_plugins (inputOptions c))
                    (watch env (inputOptions c) (outputOptions c)) b)
      else
        match rollup env (inputOptions c) (outputOptions c) write with
        | Ok codes =>
            settle watching write rest
              (generate (io_plugins (inputOptions c)) codes b)
        | Throw e => (Throw e, b)
        end
  end.

Definition newline : string := String (ascii_of_nat 10) EmptyString.

Definition collision_message (filename : string) (inputCount : nat)
  : string :=
  let hasName := Str.includes filename "[name]" in
  let hasSuffix := Str.includes filename "[suffix]" in
  "Multiple files are emitting to the same path." +:+ newline +:+
  "Please check if " +:+
  (if hasName || (inputCount =? 1)%nat then ""
   else chalk_green env "[name]" +:+ (if hasSuffix then "" else " or ")) +:+
  (if hasSuffix then "" else chalk_green env "[suffix]") +:+
  " is missing in " +:+ chalk_green env "filename" +:+ " option." +:+
  newline +:+ getDocRef env "api" "filename".

(** The deferred check at the end of [bundle]. *)
Definition check_bundles (self : Bili) (formats : JsVal)
    (inputFiles : list string) : Result unit :=
  if (size (bundles self) <? formats_length formats * length inputFiles)%nat
  then
    filename ← expect_str "filename" (opt self "filename");
    Throw (BiliError (collision_message filename (length inputFiles)))
  else Ok ().

(** The patterns handed to the glob resolver. *)
Definition input_patterns (self : Bili) : JsVal :=
  let inputFiles := Js.or (opt self "input") (VStr "src/index.js") in
  match inputFiles with
  | VArr [] => VStr "src/index.js"
  | _ => inputFiles
  end.

(** The resolved input files: the glob matches of the input patterns,
    re-expressed relative to the process's working directory. *)
Definition resolve_inputs (self : Bili) : Result (list string) :=
  matches ← globby env (input_patterns self) (opt self "cwd");
  mapR (fun v => relativeToProcessCwd self [VStr v]) matches.

Definition resolve_formats (self : Bili) : JsVal :=
  Js.or (getArrayOption self "format") FORMATS.

Definition failed (self : Bili) (calls : list EngineCall) (e : Exn)
  : Outcome :=
  {| completion := Throw e; instance := self; engine_calls := calls |}.

Fixpoint first_failure {A} (rs : list (Result A)) : option Exn :=
  match rs with
  | [] => None
  | Ok _ :: rest => first_failure rest
  | Throw e :: _ => Some e
  end.

Definition successes {A} (rs : list (Result A)) : list A :=
  omap (fun r => match r with Ok a => Some a | Throw _ => None end) rs.

Definition set_pkg (self : Bili) (p : gmap string JsVal) : Bili :=
  {| options := options self; bundles := bundles self; pkg := p |}.

Definition set_bundles (self : Bili) (b : gmap string ArtifactRecord)
  : Bili :=
  {| options := options self; bundles := b; pkg := pkg self |}.

(** [bundle({ write })] *)
Definition bundle (self : Bili) (write : bool) : Outcome :=
  let self := set_pkg self (readPkg env (opt self "cwd")) in
  match resolve_inputs self with
  | Throw e => failed self [] e
  | Ok inputFiles =>
      if (length inputFiles =? 0)%nat
      then failed self [] (BiliError "No matched files to bundle.")
      else
        let formats := resolve_formats self in
        match build_tasks inputFiles formats with
        | Throw e => failed self [] e
        | Ok tasks =>
            let watching := Js.truthy (opt self "watch") in
            let configs := createConfig self <$> tasks in
            let calls := engine_call watching write <$> successes configs in
            match first_failure configs with
            | Some e => failed self calls e
            | None =>
                let '(joined, b) :=
                  settle watching write (successes configs) (bundles self) in
                let self := set_bundles self b in
                match joined with
                | Throw e => failed self calls e
                | Ok _ =>
                    {| completion := check_bundles self formats inputFiles;
                       instance := self;
                       engine_calls := calls |}
                end
            end
        end
  end.

End BiliClass.

(** ** A sample environment

    A project at [/proj] with two sources, every module installed and an
    engine that generates one chunk of code per task. *)
Definition sample_env : Env :=
  {| process_cwd := "/proj";
     globby := fun _ _ => Ok ["src/index.js"; "src/cli.js"];
     readPkg := fun _ => ∅;
     camelcase := fun s => s;
     chalk_green := fun s => s;
     chalk_dim := fun s => s;
     getDocRef := fun _ _ => "https://bili.egoist.sh/#/api?id=filename";
     getBanner := fun _ _ => VUndefined;
     require := fun _ => None;
     call_plugin := fun _ _ => None;
     rollup := fun _ _ _ => Ok ["module.exports = 1"];
     watch := fun _ _ => [] |}.

(** The same project with one source, a plugin module [vue] that fails to
    parse and no other plugin module installed. *)
Definition bare_env : Env :=
  {| process_cwd := "/proj";
     globby := fun _ _ => Ok ["src/index.js"];
     readPkg := fun _ => ∅;
     camelcase := fun s => s;
     chalk_green := fun s => s;
     chalk_dim := fun s => s;
     getDocRef := fun _ _ => "https://bili.egoist.sh/#/api?id=filename";
     getBanner := fun _ _ => VUndefined;
     require := fun name =>
       if Str.includes name "rollup-plugin-vue"
       then Some (JsError "SyntaxError" None "Unexpected token")
       else Some (JsError "Error" (Some "MODULE_NOT_FOUND")
                          ("Cannot find module '" +:+ name +:+ "'"));
     call_plugin := fun _ _ => None;
     rollup := fun _ _ _ => Ok ["module.exports = 1"];
     watch := fun _ _ => [] |}.

Definition sample_options : gmap string JsVal :=
  list_to_map [("format", VStr "cjs,umd-min,es");
               ("external", VStr "./local,lodash");
               ("globals", VObj [("jquery", VStr "$")])].

(** A project whose input patterns match no file. *)
Definition empty_env : Env :=
  {| process_cwd := "/proj";
     globby := fun _ _ => Ok [];
     readPkg := fun _ => ∅;
     camelcase := fun s => s;
     chalk_green := fun s => s;
     chalk_dim := fun s => s;
     getDocRef := fun _ _ => "https://bili.egoist.sh/#/api?id=filename";
     getBanner := fun _ _ => VUndefined;
     require := fun _ => None;
     call_plugin := fun _ _ => None;
     rollup := fun _ _ _ => Ok ["module.exports = 1"];
     watch := fun _ _ => [] |}.

Definition no_options : gmap string JsVal := ∅.

Definition sample_task : Task := mkTask "src/index.js" "umd" true.

Definition no_config : EngineConfig :=
  {| inputOptions := mkInputOptions "" [] [];
     outputOptions :=
       mkOutputOptions "" VUndefined VUndefined "" VUndefined VUndefined false |}.

(** The configuration of [sample_task] in the sample project. *)
Definition sample_config : EngineConfig :=
  Eval vm_compute in
    match createConfig sample_env (new_Bili sample_env sample_options)
                       sample_task with
    | Ok c => c
    | Throw _ => no_config
    end.

(** Options under which both sources of the sample project are written
    to the same file. *)
Definition clashing_options : gmap string JsVal :=
  list_to_map [("name", VStr "bundle")].

(** The task of one input and one format string. *)
Definition task_of (input format : string) : Task :=
  mkTask input (Str.replace_min_suffix format) (Str.endsWith format "-min").

(** The pipeline entries that surround the user's plugins. *)
Definition pipeline_tail (self : Bili) (t : Task) (jsPlugin file : string)
  : list (option Plugin) :=
  let jsPluginName := Js.or (opt self "js") (VStr "buble") in
  let inline :=
    match opt self "inline" with
    | VUndefined => VBool (String.eqb (task_format t) "umd")
    | v => v
    end in
  [when (Js.is_str jsPluginName "buble") (PModule "rollup-plugin-babel");
   Some (PModule jsPlugin);
   when (Js.truthy inline) (PModule "rollup-plugin-commonjs");
   when (Js.truthy inline) (PModule "rollup-plugin-node-resolve");
   Some (PModule "rollup-plugin-json");
   when (task_compress t) (PModule "rollup-plugin-uglify");
   when (Js.truthy (opt self "alias")) (PModule "rollup-plugin-alias");
   when (Js.truthy (opt self "replace")) (PModule "rollup-plugin-replace");
   Some (PCollector file (opt self "outDir") (task_input t) (task_format t)
                    (task_compress t));
   when (Js.truthy (opt self "env")) (PModule "rollup-plugin-replace")].

(** A pipeline entry that stores nothing, or stores under [file]. *)
Definition writes_to (file : string) (p : Plugin) : Prop :=
  match p with
  | PCollector f _ _ _ _ => f = file
  | _ => True
  end.

(** The configuration [bundle] builds for a task: [createConfig] on the
    instance once [this.pkg] is read. *)
Definition task_config (env : Env) (self : Bili) (t : Task)
  : Result EngineConfig :=
  createConfig env (set_pkg self (readPkg env (opt self "cwd"))) t.

(** A task settles: its configuration is built and its one-shot engine
    call returns. *)
Definition task_settles (env : Env) (self : Bili) (write : bool) (t : Task)
  : Prop :=
  ∃ (c : EngineConfig) (codes : list string),
    task_config env self t = Ok c ∧
    rollup env (inputOptions c) (outputOptions c) write = Ok codes.

(** The bounds of the last component of a path: [component_end p n] is
    the index just after the last non-slash character below [n], and
    [component_start p n] the index just after the last slash below [n]. *)
Fixpoint component_end (p : string) (n : nat) : nat :=
  match n with
  | O => O
  | S i =>
      if Ascii.eqb (Path.char_at p i) Str.slash then component_end p i
      else S i
  end.

Fixpoint component_start (p : string) (n : nat) : nat :=
  match n with
  | O => O
  | S i =>
      if Ascii.eqb (Path.char_at p i) Str.slash then S i
      else component_start p i
  end.

(** What [extname_scan] knows of the last dot after visiting the indices
    from [n] on: no dot yet, or a dot at [startDot] with [preDotState]
    still [0] if nothing was seen before it. *)
Definition dot_state (n e : nat) (startDot preDotState : Z) : Prop :=
  (startDot = -1 ∧ preDotState = 0) ∨
  (Z.of_nat n ≤ startDot < Z.of_nat e ∧
   (startDot = Z.of_nat n → preDotState = 0)).

(** ** The rest of the class and of the module *)

(** The first value stored under [key] in a field list. *)
Fixpoint js_field (fields : list (string * JsVal)) (key : string)
  : option JsVal :=
  match fields with
  | [] => None
  | (k, v) :: rest => if String.eqb k key then Some v else js_field rest key
  end.

(** [v.key] for a truthy [v] and a key that is neither an index nor a
    built-in property: the field of an object, [undefined] otherwise. *)
Definition js_prop (v : JsVal) (key : string) : JsVal :=
  match v with
  | VObj fields => default VUndefined (js_field fields key)
  | _ => VUndefined
  end.

(** The collaborators of the size report: [pretty-bytes], [gzip-size],
    [chalk.bold], [boxen] and [text-table] (called with [string-width]). *)
Record Render := mkRender {
  prettyBytes : nat → string;
  gzipSize : string → nat;
  chalk_bold : string → string;
  boxen : string → string;
  textTable : list (list string) → string
}.

(** The UTF-16 code units of a string given by the bytes of its UTF-8
    encoding, which is how a string is held here: one unit for a character
    of the basic plane, a surrogate pair for any other.  A byte that starts
    no complete sequence is taken as a unit of its own. *)
Fixpoint utf16_units (bytes : list N) : list N :=
  match bytes with
  | [] => []
  | b0 :: rest =>
      if (b0 <? 192)%N then b0 :: utf16_units rest
      else if (b0 <? 224)%N then
        match rest with
        | b1 :: rest1 =>
            ((b0 mod 32) * 64 + b1 mod 64)%N :: utf16_units rest1
        | [] => [b0]
        end
      else if (b0 <? 240)%N then
        match rest with
        | b1 :: b2 :: rest2 =>
            ((b0 mod 16) * 4096 + (b1 mod 64) * 64 + b2 mod 64)%N
            :: utf16_units rest2
        | _ => b0 :: utf16_units rest
        end
      else
        match rest with
        | b1 :: b2 :: b3 :: rest3 =>
            let cp := ((b0 mod 8) * 262144 + (b1 mod 64) * 4096 +
                       (b2 mod 64) * 64 + b3 mod 64)%N in
            (55296 + (cp - 65536) / 1024)%N
            :: (56320 + (cp - 65536) mod 1024)%N :: utf16_units rest3
        | _ => b0 :: utf16_units rest
        end
  end.

Definition code_units (s : string) : list N :=
  utf16_units (N_of_ascii <$> String.list_ascii_of_string s).

(** [s.length] *)
Definition js_length (s : string) : nat := length (code_units s).

(** The order of [Array.prototype.sort] without a comparator, on
    strings: that of their code units, a proper prefix first. *)
Fixpoint units_leb (u v : list N) : bool :=
  match u, v with
  | [], _ => true
  | _ :: _, [] => false
  | x :: u', y :: v' => (x <? y)%N || ((x =? y)%N && units_leb u' v')
  end.

Definition sort_le (s1 s2 : string) : Prop :=
  units_leb (code_units s1) (code_units s2) = true.

Definition sort_le_dec (s1 s2 : string) : Decision (sort_le s1 s2) :=
  decide (units_leb (code_units s1) (code_units s2) = true).

(** [Object.keys(bundles).sort()] *)
Definition sorted_paths (b : gmap string ArtifactRecord) : list string :=
  @merge_sort _ sort_le sort_le_dec (map_to_list b).*1.

(** The rows [stats] hands to [text-table]: the header, then one row per
    path. *)
Definition stats_rows (env : Env) (r : Render) (self : Bili)
  : list (list string) :=
  (chalk_bold r <$> ["file"; "size"; "gzip size"]) ::
  ((fun filepath =>
      match bundles self !! filepath with
      | Some record =>
          [art_relative record;
           prettyBytes r (js_length (art_code record));
           chalk_green env (prettyBytes r (gzipSize r (art_code record)))]
      | None => []
      end) <$> sorted_paths (bundles self)).

(** [stats()] *)
Definition stats (env : Env) (r : Render) (self : Bili) : string :=
  boxen r (textTable r (stats_rows env r self)).

(** [Bili.write(options)]: the outcome, and the size report when [write]
    passes it to [console.log].  What [bundle] and the watch sessions log
    on the way is not part of it.  [None] is a call without an argument,
    for which the constructor takes [{}]; [options.watch] is read from the
    argument itself. *)
Definition Bili_write (env : Env) (r : Render)
    (options : option (gmap string JsVal)) : Outcome * option string :=
  let out := bundle env (new_Bili env (default ∅ options)) true in
  match completion out with
  | Throw _ => (out, None)
  | Ok _ =>
      match options with
      | None =>
          ({| completion :=
                TypeError "Cannot read property 'watch' of undefined";
              instance := instance out;
              engine_calls := engine_calls out |}, None)
      | Some o =>
          if negb (Js.truthy (Js.get o "watch"))
          then (out, Some (stats env r (instance out)))
          else (out, None)
      end
  end.

(** The argument of the warning handler. *)
Record Location := mkLocation {
  loc_file : string;
  loc_line : Z;
  loc_column : Z
}.

Record Warning := mkWarning {
  w_loc : option Location;
  w_frame : option string;
  w_message : string;
  w_code : option string
}.

Definition raised_hand : string := "🙋‍♂️ ".

(** [onwarn] of [createConfig]: the [console.warn] calls it makes, each
    with its arguments. *)
Definition onwarn (env : Env) (self : Bili) (w : Warning)
  : list (list string) :=
  if Js.truthy (opt self "quiet") ||
     bool_decide (w_code w = Some "UNRESOLVED_IMPORT") ||
     bool_decide (w_code w = Some "THIS_IS_UNDEFINED")
  then []
  else
    match w_loc w with
    | Some loc =>
        [loc_file loc +:+ " (" +:+ Js.num_to_string (loc_line loc) +:+ ":" +:+
         Js.num_to_string (loc_column loc) +:+ ") " +:+ w_message w] ::
        match w_frame w with
        | Some frame =>
            if negb (String.eqb frame "") then [[chalk_dim env frame]] else []
        | None => []
        end
    | None => [[raised_hand; w_message w]]
    end.

(** What [getJsOptions] reads from outside: [process.env.BILI_TEST] and
    [getBabelConfig] of [./get-config], whose result is given by its
    fields. *)
Record Transpile := mkTranspile {
  BILI_TEST : JsVal;
  getBabelConfig : JsVal → list (string * JsVal)
}.

(** [getJsOptions(name, jsx, jsOptions)], the returned object by its
    fields. *)
Definition getJsOptions (tr : Transpile) (name jsx jsOptions : JsVal)
  : list (string * JsVal) :=
  if Js.is_str name "babel" then
    Js.assign
      (Js.assign [("babelrc", VBool (negb (Js.truthy (BILI_TEST tr))))]
                 (getBabelConfig tr jsx))
      (Js.spread_fields jsOptions)
  else if Js.is_str name "buble" then
    Js.set_field "transforms"
      (VObj (Js.assign
               [("dangerousForOf", VBool true);
                ("dangerousTaggedTemplateString", VBool true)]
               (Js.spread_fields
                  (Js.and jsOptions (js_prop jsOptions "transforms")))))
      (Js.assign [] (Js.spread_fields jsOptions))
  else [].

(** Is this pipeline entry the collector? *)
Definition is_collector (p : Plugin) : bool :=
  match p with
  | PCollector _ _ _ _ _ => true
  | _ => false
  end.

(** The output path of a configuration. *)
Definition output_file (c : EngineConfig) : string :=
  oo_file (outputOptions c).

(** The record describes the task. *)
Definition recorded_from (t : Task) (record : ArtifactRecord) : Prop :=
  art_input record = task_input t ∧
  art_format record = task_format t ∧
  art_compress record = task_compress t.

(** Options whose [formats] is the empty string. *)
Definition empty_formats_options : gmap string JsVal :=
  list_to_map [("formats", VStr "")].

(** Options that give one plugin as an object. *)
Definition plugin_object_options : gmap string JsVal :=
  list_to_map [("plugin", VArr [VObj [("name", VStr "my-plugin")]])].

(** Options for the [postcss] and [vue] plugins. *)
Definition style_options : gmap string JsVal :=
  list_to_map [("plugin", VStr "postcss,vue");
               ("postcss", VObj [("extract", VBool false);
                                 ("modules", VBool true)]);
               ("vue", VObj [("css", VBool false)])].

(** A sample transpiler environment. *)
Definition sample_transpile : Transpile :=
  {| BILI_TEST := VUndefined;
     getBabelConfig := fun _ => [("presets", VArr [VStr "env"])] |}.

(** Transpiler options of a user who turns one default transform off. *)
Definition buble_options : JsVal :=
  VObj [("target", VObj [("node", VNum 8)]);
        ("transforms", VObj [("dangerousForOf", VBool false)])].

(** Options that ask for a transpiler which is not installed. *)
Definition typescript_options : gmap string JsVal :=
  list_to_map [("js", VStr "typescript")].

(** An instance whose package has a name and no [moduleName]. *)
Definition packaged_instance : Bili :=
  set_pkg (new_Bili sample_env no_options)
          (list_to_map [("name", VStr "my-lib")]).

(** The configuration of [sample_task] for that instance. *)
Definition packaged_config : EngineConfig :=
  Eval vm_compute in
    match createConfig sample_env packaged_instance sample_task with
    | Ok c => c
    | Throw _ => no_config
    end.

(** Options that declare an external in the parent directory. *)
Definition parent_external_options : gmap string JsVal :=
  list_to_map [("external", VStr "../shared/util,./local,lodash")].

(** The configuration of [sample_task] under those options. *)
Definition parent_external_config : EngineConfig :=
  Eval vm_compute in
    match createConfig sample_env (new_Bili sample_env parent_external_options)
                       sample_task with
    | Ok c => c
    | Throw _ => no_config
    end.

(** A local path entry, as opposed to a bare name: a path relative to the
    current or to the parent directory. *)
Definition local_path_entry (e : string) : bool :=
  Str.startsWith e "./" || Str.startsWith e "../".

(** Options with an [outDir] that is no string and an absolute file name
    pattern. *)
Definition numeric_outDir_options : gmap string JsVal :=
  list_to_map [("outDir", VNum 42); ("filename", VStr "/out/[name][suffix].js")].

(** An uncompressed task. *)
Definition plain_task : Task := mkTask "src/index.js" "cjs" false.

(** The configuration of [plain_task] under those options. *)
Definition numeric_outDir_config : EngineConfig :=
  Eval vm_compute in
    match createConfig sample_env (new_Bili sample_env numeric_outDir_options)
                       plain_task with
    | Ok c => c
    | Throw _ => no_config
    end.

(** * Properties *)

(** ** The model at work *)

Example basename_strips_directory_and_extension :
  Path.basename "src/index.js" ".js" = "index" ∧
  Path.basename "/a/b/" "" = "b" ∧
  Path.basename "a/.js" ".js" = ".js".
Proof. repeat split. Qed.

Example extname_samples :
  Path.extname "index.cjs.js" = ".js" ∧
  Path.extname "lib/.bashrc" = "" ∧
  Path.extname ".." = "" ∧
  Path.extname "a." = ".".
Proof. repeat split. Qed.

Example resolve_samples :
  Path.resolve "/home/me/proj" ["dist"; "../lib/./index.js"]
  = "/home/me/proj/lib/index.js" ∧
  Path.resolve "/home/me/proj" ["/tmp"; "out"] = "/tmp/out" ∧
  Path.resolve "/" [".."] = "/".
Proof. repeat split. Qed.

Example relative_samples :
  Path.relative "/home/me" "/home/me/proj/dist/.." "/home/me/proj/dist/a.js"
  = "dist/a.js" ∧
  Path.relative "/a/b" "/a/b/c/d" "/a/x" = "../../../x".
Proof. repeat split. Qed.

Example split_samples :
  Str.split Str.comma "cjs,umd-min,es" = ["cjs"; "umd-min"; "es"] ∧
  Str.split Str.comma "" = [""] ∧
  Str.split Str.comma "a,,b," = ["a"; ""; "b"; ""].
Proof. repeat split. Qed.

Example template_samples :
  template "[name][suffix].js" [("name", "index"); ("suffix", ".cjs")]
  = "index.cjs.js" ∧
  template "[hash].[name" [("name", "index"); ("suffix", ".cjs")]
  = "[hash].[name".
Proof. repeat split. Qed.

Example sample_build_completes :
  completion (bundle sample_env (new_Bili sample_env sample_options) true)
  = Ok () ∧
  dom (bundles (instance (bundle sample_env
                            (new_Bili sample_env sample_options) true)))
  = list_to_set ["/proj/dist/index.cjs.js"; "/proj/dist/index.min.js";
                 "/proj/dist/index.m.js"; "/proj/dist/cli.cjs.js";
                 "/proj/dist/cli.min.js"; "/proj/dist/cli.m.js"].
Proof. split; vm_compute; reflexivity. Qed.

Example clashing_build_fails :
  completion (bundle sample_env (new_Bili sample_env clashing_options) true)
  = Throw (BiliError (collision_message sample_env "[name][suffix].js" 2)).
Proof. vm_compute. reflexivity. Qed.

(** ** Strings *)

Lemma str_app_cons (a : ascii) (p s : string) :
  String a p +:+ s = String a (p +:+ s).
Proof. reflexivity. Qed.

Lemma str_app_nil_l (s : string) : "" +:+ s = s.
Proof. reflexivity. Qed.

Lemma str_app_nil_r (a : string) : a +:+ "" = a.
Proof. induction a as [|x a IH]; [done|]. by rewrite str_app_cons, IH. Qed.






Lemma endsWith_unfold (s suf : string) :
  Str.endsWith s suf =
  String.eqb s suf ||
  match s with
  | EmptyString => false
  | String _ s' => Str.endsWith s' suf
  end.
Proof. by destruct s. Qed.

Lemma endsWith_spec (s suf : string) :
  Str.endsWith s suf = true ↔ ∃ base, s = base +:+ suf.
Proof.
  split.
  - induction s as [|c s IH]; rewrite endsWith_unfold; intros H;
      apply orb_true_iff in H as [H|H]; try done.
    + apply String.eqb_eq in H as ->. by exists "".
    + apply String.eqb_eq in H as ->. by exists "".
    + destruct (IH H) as [base ->]. by exists (String c base).
  - intros [base ->].
    induction base as [|c base IH]; rewrite endsWith_unfold.
    + by rewrite str_app_nil_l, String.eqb_refl.
    + rewrite str_app_cons, IH. apply orb_true_r.
Qed.

Lemma length_app_string (a b : string) :
  String.length (a +:+ b) = (String.length a + String.length b)%nat.
Proof. induction a as [|x a IH]; [done|]. rewrite str_app_cons. cbn. by rewrite IH. Qed.

Lemma replace_min_suffix_strips (base : string) :
  Str.replace_min_suffix (base +:+ "-min") = base.
Proof.
  induction base as [|c base IH]; [done|].
  rewrite str_app_cons. cbn [Str.replace_min_suffix].
  destruct (String.eqb_spec (String c (base +:+ "-min")) "-min") as [E|_].
  - apply (f_equal String.length) in E. cbn in E.
    rewrite length_app_string in E. cbn in E. lia.
  - by rewrite IH.
Qed.

Lemma replace_min_suffix_keeps (s : string) :
  Str.endsWith s "-min" = false → Str.replace_min_suffix s = s.
Proof.
  induction s as [|c s IH]; [done|].
  rewrite endsWith_unfold. intros [H1 H2]%orb_false_iff.
  cbn [Str.replace_min_suffix]. rewrite H1. by rewrite IH.
Qed.

(** ** Splitting on a separator *)

Lemma split_nonempty (sep : ascii) (s : string) : Str.split sep s ≠ [].
Proof.
  destruct s as [|c s]; [done|]. cbn.
  destruct (Ascii.eqb c sep); [done|]. by destruct (Str.split sep s).
Qed.

Lemma join_cons_char (sep : string) (c : ascii) (piece : string)
    (rest : list string) :
  Js.join sep (String c piece :: rest) = String c (Js.join sep (piece :: rest)).
Proof. by destruct rest. Qed.

Lemma join_cons_cons (sep x y : string) (l : list string) :
  Js.join sep (x :: y :: l) = x +:+ sep +:+ Js.join sep (y :: l).
Proof. reflexivity. Qed.

Lemma join_split (sep : ascii) (s : string) :
  Js.join (String sep "") (Str.split sep s) = s.
Proof.
  induction s as [|c s IH]; [done|]. cbn [Str.split].
  destruct (Ascii.eqb_spec c sep) as [->|Hne].
  - pose proof (split_nonempty sep s) as Hs.
    destruct (Str.split sep s) as [|piece rest] eqn:E; [done|].
    by rewrite join_cons_cons, IH.
  - pose proof (split_nonempty sep s) as Hs.
    destruct (Str.split sep s) as [|piece rest] eqn:E; [done|].
    by rewrite join_cons_char, IH.
Qed.

Lemma split_pieces_clean (sep : ascii) (s : string) :
  Forall (fun piece => Str.has_char sep piece = false) (Str.split sep s).
Proof.
  induction s as [|c s IH]; cbn [Str.split].
  - by constructor.
  - destruct (Ascii.eqb_spec c sep) as [->|Hne].
    + by constructor.
    + destruct (Str.split sep s) as [|piece rest] eqn:E.
      * constructor; [|done]. cbn. apply Ascii.eqb_neq in Hne. by rewrite Hne.
      * inversion IH as [|? ? Hp Hr]; subst. constructor; [|done].
        cbn. apply Ascii.eqb_neq in Hne. by rewrite Hne.
Qed.

(** ** The suffix resolver *)

(** C3: [getSuffix] returns on exactly the three formats [cjs], [es] and
    [umd], with suffixes [.cjs], [.m] and the empty string, and on every
    other input it throws the error [unsupported format]. *)
Theorem getSuffix_total_on_known_formats :
  getSuffix "cjs" = Ok ".cjs" ∧
  getSuffix "es" = Ok ".m" ∧
  getSuffix "umd" = Ok "" ∧
  ∀ format : string,
    format ≠ "cjs" → format ≠ "es" → format ≠ "umd" →
    getSuffix format = Throw (JsError "Error" None "unsupported format").
Proof.
  repeat split. intros format Hcjs Hes Humd. unfold getSuffix.
  apply String.eqb_neq in Hcjs, Hes, Humd. by rewrite Hcjs, Hes, Humd.
Qed.

Lemma getSuffix_total_on_known_formats_witness :
  getSuffix "iife" = Throw (JsError "Error" None "unsupported format").
Proof.
  apply (proj2 (proj2 (proj2 getSuffix_total_on_known_formats)) "iife");
    discriminate.
Defined.

(** ** List-valued options *)

(** C10: the singular key wins whenever its value is truthy, otherwise the
    plural key is read; a string value is split on commas (the pieces,
    joined by commas, give the string back and none holds a comma); any
    other value is returned as it is. *)
Theorem getArrayOption_singular_first (self : Bili) (name : string) :
  let chosen :=
    if Js.truthy (opt self name) then opt self name
    else opt self (name +:+ "s") in
  match chosen with
  | VStr s =>
      ∃ pieces : list string,
        getArrayOption self name = VArr (VStr <$> pieces) ∧
        Js.join "," pieces = s ∧
        Forall (fun piece => Str.has_char Str.comma piece = false) pieces
  | other => getArrayOption self name = other
  end.
Proof.
  cbn zeta. unfold getArrayOption, Js.or.
  destruct (if Js.truthy (opt self name) then opt self name
            else opt self (name +:+ "s")) eqn:E; try done.
  exists (Str.split Str.comma s). split; [done|].
  split; [apply (join_split Str.comma)|apply split_pieces_clean].
Qed.

(** ** Tasks *)

(** C5: a requested format [base-min] gives a task of format [base] with
    the compress flag set; a format that does not end in [-min] gives a
    task of that very format with the compress flag clear. *)
Theorem format_task_minify_marker (input : string) :
  (∀ base : string,
     format_task input (VStr (base +:+ "-min")) = Ok (mkTask input base true)) ∧
  (∀ format : string,
     (∀ base : string, format ≠ base +:+ "-min") →
     format_task input (VStr format) = Ok (mkTask input format false)).
Proof.
  split.
  - intros base. unfold format_task.
    rewrite replace_min_suffix_strips.
    by rewrite (proj2 (endsWith_spec (base +:+ "-min") "-min")); [|exists base].
  - intros format Hno. unfold format_task.
    destruct (Str.endsWith format "-min") eqn:E.
    + apply endsWith_spec in E as [base ->]. by destruct (Hno base).
    + by rewrite replace_min_suffix_keeps.
Qed.

Lemma format_task_minify_marker_witness :
  format_task "src/index.js" (VStr "umd") = Ok (mkTask "src/index.js" "umd" false).
Proof.
  apply (proj2 (format_task_minify_marker "src/index.js") "umd").
  intros base E. apply (f_equal String.length) in E.
  rewrite length_app_string in E. cbn in E. lia.
Defined.

Lemma mapR_format_task (input : string) (formats : list string) :
  mapR (format_task input) (VStr <$> formats) = Ok (task_of input <$> formats).
Proof.
  induction formats as [|f formats IH]; [done|].
  cbn [fmap list_fmap mapR]. cbn [format_task mbind Result_bind].
  change (list_fmap string JsVal VStr formats) with (VStr <$> formats).
  by rewrite IH.
Qed.

Lemma build_tasks_from (inputs : list string) (formats : list string)
    (done_ : list Task) :
  fold_left
    (fun res input =>
       res ← res;
       tasks ←
         match VArr (VStr <$> formats) with
         | VArr l => mapR (format_task input) l
         | _ => TypeError "formats.map is not a function"
         end;
       Ok (res ++ tasks))
    inputs (Ok done_)
  = Ok (done_ ++ (inputs ≫= fun input => task_of input <$> formats)).
Proof.
  revert done_. induction inputs as [|input inputs IH]; intros done_.
  - cbn. by rewrite app_nil_r.
  - cbn [fold_left mbind Result_bind]. rewrite mapR_format_task.
    cbn [mbind Result_bind]. rewrite IH, bind_cons. by rewrite app_assoc.
Qed.

Lemma build_tasks_strings (inputs formats : list string) :
  build_tasks inputs (VArr (VStr <$> formats))
  = Ok (inputs ≫= fun input => task_of input <$> formats).
Proof. unfold build_tasks. by rewrite build_tasks_from. Qed.

Lemma length_bind_const {A B} (f : A → list B) (l : list A) (n : nat) :
  (∀ x, length (f x) = n) → length (l ≫= f) = (length l * n)%nat.
Proof.
  intros Hf. induction l as [|x l IH]; [done|].
  rewrite bind_cons, length_app, Hf, IH. cbn. lia.
Qed.

Lemma lookup_bind_const {A B} (f : A → list B) (l : list A) (n i j : nat)
    (x : A) (y : B) :
  (∀ x, length (f x) = n) →
  l !! i = Some x → f x !! j = Some y →
  (l ≫= f) !! (i * n + j)%nat = Some y.
Proof.
  intros Hf. revert i. induction l as [|x' l IH]; intros i Hi Hj; [done|].
  rewrite bind_cons. destruct i as [|i].
  - cbn in Hi. injection Hi as ->. cbn. by apply lookup_app_l_Some.
  - cbn in Hi. rewrite lookup_app_r; rewrite Hf; [|lia].
    replace (S i * n + j - n)%nat with (i * n + j)%nat by lia.
    by apply IH.
Qed.

(** C2: the task list holds one task per (input, format) pair: its length
    is the number of inputs times the number of formats, and the task of
    the [i]-th input and the [j]-th format sits at index
    [i * |formats| + j]; it is a function of the two lists alone. *)
Theorem build_tasks_cross_product (inputFiles formats : list string) :
  ∃ tasks : list Task,
    build_tasks inputFiles (VArr (VStr <$> formats)) = Ok tasks ∧
    length tasks = (length inputFiles * length formats)%nat ∧
    ∀ (i j : nat) (input format : string),
      inputFiles !! i = Some input → formats !! j = Some format →
      tasks !! (i * length formats + j)%nat
      = Some (mkTask input (Str.replace_min_suffix format)
                     (Str.endsWith format "-min")).
Proof.
  eexists. split; [apply build_tasks_strings|]. split.
  - apply length_bind_const. intros x. apply length_fmap.
  - intros i j input format Hi Hj.
    apply lookup_bind_const with (x := input); [|done|].
    + intros x. apply length_fmap.
    + by rewrite list_lookup_fmap, Hj.
Qed.

Lemma build_tasks_cross_product_witness :
  ∃ tasks : list Task,
    build_tasks ["src/index.js"; "src/cli.js"] (VArr (VStr <$> ["cjs"; "umd-min"]))
    = Ok tasks ∧
    tasks !! 3%nat = Some (mkTask "src/cli.js" "umd" true).
Proof.
  destruct (build_tasks_cross_product ["src/index.js"; "src/cli.js"]
                                      ["cjs"; "umd-min"])
    as (tasks & Hbuild & _ & Hat).
  exists tasks. split; [exact Hbuild|].
  apply (Hat 1%nat 1%nat "src/cli.js" "umd-min"); reflexivity.
Defined.

(** ** The configuration builder *)

Lemma bind_Ok_inv {A B} (r : Result A) (f : A → Result B) (b : B) :
  r ≫= f = Ok b → ∃ a, r = Ok a ∧ f a = Ok b.
Proof. destruct r as [a|e]; [|done]. intros H. by exists a. Qed.

Lemma Ok_inj {A} (a b : A) : Ok a = Ok b → a = b.
Proof. congruence. Qed.

Lemma mapR_Ok_inv {A B} (f : A → Result B) (l : list A) (l' : list B) :
  mapR f l = Ok l' → Forall2 (fun x y => f x = Ok y) l l'.
Proof.
  revert l'. induction l as [|x l IH]; intros l' H.
  - injection H as <-. constructor.
  - cbn [mapR] in H.
    apply bind_Ok_inv in H as (y & Hy & H).
    apply bind_Ok_inv in H as (ys & Hys & H).
    injection H as <-. constructor; [done|]. by apply IH.
Qed.

Lemma createConfig_inv (env : Env) (self : Bili) (t : Task)
    (cfg : EngineConfig) :
  createConfig env self t = Ok cfg →
  ∃ (outFilename file jsPlugin : string) (declared : list string)
    (userPlugins : list (option Plugin)),
    getFilename (task_input t) (task_format t) (opt self "filename")
                (task_compress t) (opt self "name") = Ok outFilename ∧
    resolveCwd env self [opt self "outDir"; VStr outFilename] = Ok file ∧
    match Js.or (getArrayOption self "external") (VArr []) with
    | VArr l => mapR (external_entry env) l
    | _ => TypeError "external.map is not a function"
    end = Ok declared ∧
    match Js.typeof (Js.or (opt self "globals") (opt self "global")) with
    | Js.TObject =>
        ks ← Js.keys (Js.or (opt self "globals") (opt self "global"));
        Ok (declared ++ ks)
    | _ => Ok declared
    end = Ok (io_external (inputOptions cfg)) ∧
    loadUserPlugins env self outFilename = Ok userPlugins ∧
    io_plugins (inputOptions cfg)
    = omap id ([Some (PModule "rollup-plugin-hashbang")] ++ userPlugins ++
               pipeline_tail self t jsPlugin file) ∧
    oo_file (outputOptions cfg) = file ∧
    oo_sourcemap (outputOptions cfg)
    = match opt self "map" with VBool b => b | _ => task_compress t end.
Proof.
  unfold createConfig. intros H.
  apply bind_Ok_inv in H as (outFilename & HoutFilename & H).
  apply bind_Ok_inv in H as (file & Hfile & H).
  apply bind_Ok_inv in H as (jsPlugin & HjsPlugin & H).
  apply bind_Ok_inv in H as (declared & Hdeclared & H).
  apply bind_Ok_inv in H as (external & Hexternal & H).
  apply bind_Ok_inv in H as (userPlugins & HuserPlugins & H).
  injection H as <-.
  exists outFilename, file, jsPlugin, declared, userPlugins.
  cbn [inputOptions outputOptions io_external io_plugins oo_file oo_sourcemap].
  by repeat split.
Qed.

(** C8: the source-map flag of a task's output configuration is the [map]
    option when that option is a boolean, and the task's compress flag
    otherwise. *)
Theorem createConfig_sourcemap (env : Env) (self : Bili) (t : Task)
    (cfg : EngineConfig) :
  createConfig env self t = Ok cfg →
  (∀ b : bool, opt self "map" = VBool b →
     oo_sourcemap (outputOptions cfg) = b) ∧
  (Js.typeof (opt self "map") ≠ Js.TBoolean →
     oo_sourcemap (outputOptions cfg) = task_compress t).
Proof.
  intros H. apply createConfig_inv in H
    as (? & ? & ? & ? & ? & _ & _ & _ & _ & _ & _ & _ & ->).
  split.
  - by intros b ->.
  - intros Hty. by destruct (opt self "map").
Qed.

Lemma createConfig_sourcemap_witness :
  oo_sourcemap (outputOptions sample_config) = task_compress sample_task.
Proof.
  apply (proj2 (createConfig_sourcemap sample_env
                  (new_Bili sample_env sample_options) sample_task
                  sample_config ltac:(vm_compute; reflexivity))).
  vm_compute. discriminate.
Defined.

Lemma resolve_collect_absolute (l : list string) (acc : string) :
  Exists (fun p => Str.startsWith p "/" = true) l →
  (Path.resolve_collect l acc).2 = true.
Proof.
  revert acc. induction l as [|p l IH]; intros acc H.
  - by apply Exists_nil in H.
  - cbn [Path.resolve_collect].
    destruct (String.eqb_spec p "") as [->|Hp].
    + apply IH. by apply Exists_cons in H as [H|H].
    + destruct (Str.startsWith p "/") eqn:E; [reflexivity|].
      apply IH. apply Exists_cons in H as [H|H]; [congruence|done].
Qed.

Lemma resolve_absolute (cwd : string) (args : list string) :
  Str.startsWith cwd "/" = true →
  Str.startsWith (Path.resolve cwd args) "/" = true.
Proof.
  intros Hcwd. unfold Path.resolve.
  pose proof (resolve_collect_absolute (rev args ++ [cwd]) "") as H.
  destruct (Path.resolve_collect (rev args ++ [cwd]) "") as [rp abs].
  cbn in H. rewrite H; [reflexivity|].
  apply Exists_app. right. by constructor.
Qed.

Lemma resolve_visit_strs (l : list string) (acc : string) :
  resolve_visit (VStr <$> l) acc = Ok (Path.resolve_collect l acc).
Proof.
  revert acc. induction l as [|p l IH]; intros acc; [done|].
  cbn [fmap list_fmap resolve_visit Path.resolve_collect expect_str
       mbind Result_bind].
  destruct (String.eqb p ""); [apply IH|].
  destruct (Str.startsWith p "/"); [done|apply IH].
Qed.

(** On strings, [path_resolve] is [Path.resolve]. *)
Lemma path_resolve_strs (cwd : string) (args : list string) :
  path_resolve cwd (VStr <$> args) = Ok (Path.resolve cwd args).
Proof.
  unfold path_resolve, Path.resolve.
  replace (rev (VStr <$> args) ++ [VStr cwd])
    with (VStr <$> (rev args ++ [cwd]))
    by (by rewrite fmap_app, <- map_rev).
  rewrite resolve_visit_strs. cbn [mbind Result_bind].
  by destruct (Path.resolve_collect (rev args ++ [cwd]) "").
Qed.

Lemma resolve_visit_absolute (l : list JsVal) (acc : string)
    (r : string * bool) :
  Exists (fun v => ∃ p, v = VStr p ∧ Str.startsWith p "/" = true) l →
  resolve_visit l acc = Ok r → r.2 = true.
Proof.
  revert acc. induction l as [|v l IH]; intros acc H Hr.
  - by apply Exists_nil in H.
  - cbn [resolve_visit] in Hr.
    apply bind_Ok_inv in Hr as (p & Hp & Hr).
    destruct v as [| | | |s| |]; try done. apply Ok_inj in Hp as ->.
    assert (Str.startsWith p "/" = false → Exists
              (fun v => ∃ p, v = VStr p ∧ Str.startsWith p "/" = true) l)
      as Hrest.
    { intros Hrel. apply Exists_cons in H as [(q & [= <-] & Hq)|H];
        [congruence|done]. }
    destruct (String.eqb_spec p "") as [->|Hne]; [by eapply IH; eauto|].
    destruct (Str.startsWith p "/") eqn:E; [by apply Ok_inj in Hr as <-|].
    eapply IH; eauto.
Qed.

Lemma path_resolve_two (cwd a b : string) :
  path_resolve cwd [VStr a; VStr b] = Ok (Path.resolve cwd [a; b]).
Proof. apply (path_resolve_strs cwd [a; b]). Qed.

(** What [path_resolve] returns is absolute when the working directory
    is. *)
Lemma path_resolve_absolute (cwd : string) (args : list JsVal) (r : string) :
  Str.startsWith cwd "/" = true →
  path_resolve cwd args = Ok r → Str.startsWith r "/" = true.
Proof.
  intros Hcwd H. unfold path_resolve in H.
  apply bind_Ok_inv in H as (visited & Hvisited & H).
  apply resolve_visit_absolute in Hvisited.
  - rewrite Hvisited in H. by apply Ok_inj in H as <-.
  - apply Exists_app. right. constructor. by exists cwd.
Qed.

(** An absolute last argument is resolved on its own, whatever stands to
    its left. *)
Lemma path_resolve_last_absolute (cwd : string) (args : list JsVal)
    (p : string) :
  Str.startsWith p "/" = true →
  path_resolve cwd (args ++ [VStr p]) = Ok (Path.resolve cwd [p]).
Proof.
  intros Hp. unfold path_resolve, Path.resolve.
  rewrite rev_app_distr.
  cbn [rev app resolve_visit Path.resolve_collect expect_str mbind
       Result_bind].
  destruct (String.eqb_spec p "") as [->|_]; [done|].
  by rewrite Hp.
Qed.

Lemma external_entries_inv (env : Env) (l : list JsVal)
    (resolved : list string) :
  Str.startsWith (process_cwd env) "/" = true →
  mapR (external_entry env) l = Ok resolved →
  ∃ declared : list string,
    l = VStr <$> declared ∧
    Forall2 (fun e r =>
               if Str.startsWith e "./"
               then r = Path.resolve (process_cwd env) [e] ∧
                    Str.startsWith r "/" = true
               else r = e) declared resolved.
Proof.
  intros Hcwd H. apply mapR_Ok_inv in H.
  induction H as [|x r l resolved Hx _ (declared & -> & IH)].
  - by exists [].
  - destruct x as [| | | |s| |]; try done.
    exists (s :: declared). split; [reflexivity|]. constructor; [|done].
    unfold external_entry in Hx. apply Ok_inj in Hx as <-.
    destruct (Str.startsWith s "./"); [|reflexivity].
    split; [reflexivity|]. by apply resolve_absolute.
Qed.

(** C9: the external list of a task is the list of declared externals,
    entry by entry, where an entry starting with [./] is replaced by its
    absolute resolution and any other entry, a bare name or a path of
    another form, is kept as it is, followed by the keys of the globals
    value when that value is an object. *)
Theorem createConfig_external (env : Env) (self : Bili) (t : Task)
    (cfg : EngineConfig) :
  Str.startsWith (process_cwd env) "/" = true →
  createConfig env self t = Ok cfg →
  ∃ declared resolved keys : list string,
    Js.or (getArrayOption self "external") (VArr []) = VArr (VStr <$> declared) ∧
    io_external (inputOptions cfg) = resolved ++ keys ∧
    Forall2 (fun e r =>
               if Str.startsWith e "./"
               then r = Path.resolve (process_cwd env) [e] ∧
                    Str.startsWith r "/" = true
               else r = e) declared resolved ∧
    let globals := Js.or (opt self "globals") (opt self "global") in
    (∀ fields, globals = VObj fields → keys = fields.*1) ∧
    (Js.typeof globals = Js.TObject → Js.keys globals = Ok keys) ∧
    (Js.typeof globals ≠ Js.TObject → keys = []).
Proof.
  intros Hcwd H. apply createConfig_inv in H
    as (? & ? & ? & resolved & ? & _ & _ & Hdecl & Hext & _).
  destruct (Js.or (getArrayOption self "external") (VArr [])) as [| | | | |l|];
    try done.
  apply external_entries_inv in Hdecl as (declared & -> & Hall); [|done].
  set (globals := Js.or (opt self "globals") (opt self "global")) in *.
  assert (∃ keys : list string,
            io_external (inputOptions cfg) = resolved ++ keys ∧
            (Js.typeof globals = Js.TObject → Js.keys globals = Ok keys) ∧
            (Js.typeof globals ≠ Js.TObject → keys = []))
    as (keys & Hcfg & Hobj & Hnon).
  { destruct (Js.typeof globals) eqn:Hty.
    2: { apply bind_Ok_inv in Hext as (keys & Hkeys & Hext).
         apply Ok_inj in Hext. by exists keys. }
    all: apply Ok_inj in Hext; exists []; by rewrite app_nil_r. }
  exists declared, resolved, keys.
  split; [done|]. split; [done|]. split; [done|]. split; [|done].
  intros fields Hf. rewrite Hf in Hobj. specialize (Hobj eq_refl).
  cbn in Hobj. by apply Ok_inj in Hobj.
Qed.

Lemma createConfig_external_witness :
  ∃ declared resolved keys : list string,
    Js.or (getArrayOption (new_Bili sample_env sample_options) "external")
          (VArr []) = VArr (VStr <$> declared) ∧
    io_external (inputOptions sample_config) = resolved ++ keys ∧
    Forall2 (fun e r =>
               if Str.startsWith e "./"
               then r = Path.resolve "/proj" [e] ∧ Str.startsWith r "/" = true
               else r = e) declared resolved ∧
    let globals :=
      Js.or (opt (new_Bili sample_env sample_options) "globals")
            (opt (new_Bili sample_env sample_options) "global") in
    (∀ fields, globals = VObj fields → keys = fields.*1) ∧
    (Js.typeof globals = Js.TObject → Js.keys globals = Ok keys) ∧
    (Js.typeof globals ≠ Js.TObject → keys = []).
Proof.
  apply (createConfig_external sample_env (new_Bili sample_env sample_options)
           sample_task sample_config);
    vm_compute; reflexivity.
Defined.

(** An external in the parent directory is a local path entry, not a
    bare name, and it is passed through as it is: the external list does
    not hold an absolute path for every local path entry. *)
Lemma createConfig_external_counterexample :
  createConfig sample_env (new_Bili sample_env parent_external_options)
               sample_task = Ok parent_external_config ∧
  Js.or (getArrayOption (new_Bili sample_env parent_external_options)
                        "external") (VArr [])
  = VArr (VStr <$> ["../shared/util"; "./local"; "lodash"]) ∧
  io_external (inputOptions parent_external_config)
  = ["../shared/util"; "/proj/local"; "lodash"] ∧
  ¬ Forall2 (fun e r => if local_path_entry e
                        then Str.startsWith r "/" = true else r = e)
            ["../shared/util"; "./local"; "lodash"]
            (io_external (inputOptions parent_external_config)).
Proof.
  split; [by vm_compute|]. split; [by vm_compute|]. split; [by vm_compute|].
  intros H. apply Forall2_cons_1 in H as [H _]. vm_compute in H.
  discriminate.
Qed.

(** ** Plugin loading *)





(** ** Input resolution *)

(** C6: without an [input] option, or with a falsy one or an empty list,
    the glob pattern is [src/index.js]; and when the glob resolver finds no
    file, [bundle] throws the [BiliError] "No matched files to bundle."
    without having started any engine call. *)
Theorem bundle_no_matched_files (env : Env) (self : Bili) (write : bool) :
  (options self !! "input" = None → input_patterns self = VStr "src/index.js") ∧
  (Js.truthy (opt self "input") = false →
   input_patterns self = VStr "src/index.js") ∧
  (opt self "input" = VArr [] → input_patterns self = VStr "src/index.js") ∧
  (globby env (input_patterns self) (opt self "cwd") = Ok [] →
   completion (bundle env self write)
   = Throw (BiliError "No matched files to bundle.") ∧
   engine_calls (bundle env self write) = []).
Proof.
  assert (Js.truthy (opt self "input") = false →
          input_patterns self = VStr "src/index.js") as Hfalsy.
  { intros H. unfold input_patterns, Js.or. by rewrite H. }
  repeat split.
  - intros H. apply Hfalsy. unfold opt, Js.get. by rewrite H.
  - done.
  - intros H. unfold input_patterns, Js.or. by rewrite H.
  - unfold bundle.
    change (resolve_inputs env (set_pkg self _)) with (resolve_inputs env self).
    unfold resolve_inputs. by rewrite H.
  - unfold bundle.
    change (resolve_inputs env (set_pkg self _)) with (resolve_inputs env self).
    unfold resolve_inputs. by rewrite H.
Qed.

Lemma bundle_no_matched_files_witness :
  input_patterns (new_Bili empty_env no_options) = VStr "src/index.js" ∧
  input_patterns (new_Bili empty_env (<["input" := VStr ""]> no_options)) = VStr "src/index.js" ∧
  input_patterns (new_Bili empty_env (<["input" := VArr []]> no_options)) = VStr "src/index.js" ∧
  completion (bundle empty_env (new_Bili empty_env no_options) true)
  = Throw (BiliError "No matched files to bundle.") ∧
  engine_calls (bundle empty_env (new_Bili empty_env no_options) true) = [].
Proof.
  split; [|split; [|split]].
  - apply (proj1 (bundle_no_matched_files empty_env (new_Bili empty_env no_options) true)).
    vm_compute. reflexivity.
  - apply (proj1 (proj2 (bundle_no_matched_files empty_env
                           (new_Bili empty_env (<["input" := VStr ""]> no_options)) true))).
    vm_compute. reflexivity.
  - apply (proj1 (proj2 (proj2 (bundle_no_matched_files empty_env
                           (new_Bili empty_env (<["input" := VArr []]> no_options)) true)))).
    vm_compute. reflexivity.
  - apply (proj2 (proj2 (proj2 (bundle_no_matched_files empty_env
                           (new_Bili empty_env no_options) true)))).
    vm_compute. reflexivity.
Defined.

(** ** The artifact map *)

Lemma size_list_to_set_le (l : list string) :
  (size (list_to_set l : gset string) ≤ length l)%nat.
Proof.
  induction l as [|x l IH]; [done|].
  rewrite list_to_set_cons, size_union_alt, size_singleton. cbn.
  assert (size (list_to_set l ∖ {[x]} : gset string)
          ≤ size (list_to_set l : gset string))%nat
    by (apply subseteq_size; set_solver).
  lia.
Qed.

Lemma size_list_to_set_dup (l : list string) (i j : nat) (x : string) :
  i ≠ j → l !! i = Some x → l !! j = Some x →
  (size (list_to_set l : gset string) < length l)%nat.
Proof.
  revert i j. induction l as [|y l IH]; intros i j Hij Hi Hj; [done|].
  assert (∀ k, l !! k = Some y →
            (size (list_to_set (y :: l) : gset string) < length (y :: l))%nat)
    as Hhead.
  { intros k Hk. rewrite list_to_set_cons.
    assert (y ∈ (list_to_set l : gset string)) as Hy
      by (apply elem_of_list_to_set, list_elem_of_lookup; eauto).
    replace ({[y]} ∪ list_to_set l : gset string) with
      (list_to_set l : gset string) by set_solver.
    pose proof (size_list_to_set_le l). cbn. lia. }
  destruct i as [|i], j as [|j]; [done| | |].
  - injection Hi as ->. by apply (Hhead j).
  - injection Hj as ->. by apply (Hhead i).
  - cbn in Hi, Hj.
    assert (size (list_to_set l : gset string) < length l)%nat as Hl
      by (apply (IH i j); [congruence|done..]).
    rewrite list_to_set_cons, size_union_alt, size_singleton. cbn.
    assert (size (list_to_set l ∖ {[y]} : gset string)
            ≤ size (list_to_set l : gset string))%nat
      by (apply subseteq_size; set_solver).
    lia.
Qed.

Lemma ongenerate_dom (env : Env) (file : string) (p : Plugin)
    (code : string) (b b' : gmap string ArtifactRecord) :
  writes_to file p → ongenerate env p code b = Ok b' →
  dom b' ⊆ dom b ∪ {[file]}.
Proof.
  destruct p; cbn [writes_to ongenerate]; intros Hfile Hgen;
    try (apply Ok_inj in Hgen as <-; set_solver).
  apply bind_Ok_inv in Hgen as (base & _ & Hgen).
  apply Ok_inj in Hgen as <-. subst. set_solver.
Qed.

Lemma run_hooks_dom (env : Env) (file : string) (plugins : list Plugin)
    (code : string) (b : gmap string ArtifactRecord) :
  Forall (writes_to file) plugins →
  dom (run_hooks env plugins code b) ⊆ dom b ∪ {[file]}.
Proof.
  intros Hall. revert b.
  induction Hall as [|p plugins Hp _ IH]; intros b; [set_solver|].
  cbn [run_hooks].
  destruct (ongenerate env p code b) as [b'|e] eqn:Hgen; [|set_solver].
  etrans; [apply IH|].
  pose proof (ongenerate_dom env file p code b b' Hp Hgen). set_solver.
Qed.

Lemma generate_dom (env : Env) (file : string) (plugins : list Plugin)
    (codes : list string) (b : gmap string ArtifactRecord) :
  Forall (writes_to file) plugins →
  dom (generate env plugins codes b) ⊆ dom b ∪ {[file]}.
Proof.
  intros Hall. unfold generate. revert b.
  induction codes as [|code codes IH]; intros b; [set_solver|].
  cbn [fold_left]. etrans; [apply IH|].
  pose proof (run_hooks_dom env file plugins code b Hall). set_solver.
Qed.

Lemma settle_dom (env : Env) (watching write : bool)
    (configs : list EngineConfig) (b : gmap string ArtifactRecord) :
  Forall (fun c => Forall (writes_to (oo_file (outputOptions c)))
                          (io_plugins (inputOptions c))) configs →
  dom (settle env watching write configs b).2
  ⊆ dom b ∪ list_to_set ((fun c => oo_file (outputOptions c)) <$> configs).
Proof.
  intros Hall. revert b.
  induction Hall as [|c configs Hc _ IH]; intros b; [set_solver|].
  cbn [settle]. rewrite fmap_cons, list_to_set_cons.
  destruct watching.
  - etrans; [apply IH|].
    pose proof (generate_dom env _ _
                  (watch env (inputOptions c) (outputOptions c)) b Hc).
    set_solver.
  - destruct (rollup env (inputOptions c) (outputOptions c) write)
      as [codes|e]; [|set_solver].
    etrans; [apply IH|].
    pose proof (generate_dom env _ _ codes b Hc). set_solver.
Qed.

Lemma loadUserPlugin_stores_nothing (env : Env) (self : Bili)
    (filename file : string) (pluginName : JsVal) (p : Plugin) :
  loadUserPlugin env self filename pluginName = Ok (Some p) → writes_to file p.
Proof.
  unfold loadUserPlugin. destruct (Js.typeof pluginName).
  2: { destruct (Js.truthy pluginName); intros H; apply Ok_inj in H;
       [|done]. by injection H as <-. }
  all: intros H; apply bind_Ok_inv in H as (pluginOptions & _ & H);
    destruct (localRequire env _); [done|];
    destruct (call_plugin env _ _); [done|];
    apply Ok_inj in H; by injection H as <-.
Qed.

Lemma Forall_omap_id {A} (P : A → Prop) (l : list (option A)) :
  Forall (fun o => ∀ a, o = Some a → P a) l → Forall P (omap id l).
Proof.
  induction 1 as [|o l Ho _ IH]; [constructor|].
  cbn. destruct o as [a|]; cbn; [constructor; auto|done].
Qed.

Lemma createConfig_plugins_store_under_file (env : Env) (self : Bili)
    (t : Task) (cfg : EngineConfig) :
  createConfig env self t = Ok cfg →
  Forall (writes_to (oo_file (outputOptions cfg)))
         (io_plugins (inputOptions cfg)).
Proof.
  intros H. apply createConfig_inv in H
    as (outFilename & file & jsPlugin & declared & userPlugins &
        _ & _ & _ & _ & Huser & -> & -> & _).
  apply Forall_omap_id. rewrite !Forall_app. split; [|split].
  - constructor; [|constructor]. by intros p [= <-].
  - unfold loadUserPlugins in Huser.
    destruct (Js.or (getArrayOption self "plugin") (VArr [])); try done.
    apply mapR_Ok_inv in Huser.
    induction Huser as [|x o ? ? Hx _ IH]; constructor; [|done].
    intros p ->. by eapply loadUserPlugin_stores_nothing.
  - unfold pipeline_tail, when.
    repeat (constructor;
            [intros p Hp; repeat case_match; by simplify_eq|]).
    constructor.
Qed.

Lemma first_failure_none {A} (rs : list (Result A)) :
  first_failure rs = None → rs = Ok <$> successes rs.
Proof.
  induction rs as [|[a|e] rs IH]; cbn; intros H; [done| |done].
  unfold successes in *. cbn. f_equal. by apply IH.
Qed.

Lemma mapR_length {A B} (f : A → Result B) (l : list A) (l' : list B) :
  mapR f l = Ok l' → length l' = length l.
Proof. intros H%mapR_Ok_inv. symmetry. by eapply Forall2_length. Qed.

Lemma build_tasks_length_from (inputs : list string) (formats : JsVal)
    (acc tasks : list Task) :
  fold_left
    (fun res input =>
       res ← res;
       tasks ←
         match formats with
         | VArr l => mapR (format_task input) l
         | _ => TypeError "formats.map is not a function"
         end;
       Ok (res ++ tasks))
    inputs (Ok acc) = Ok tasks →
  length tasks = (length acc + formats_length formats * length inputs)%nat.
Proof.
  revert acc. induction inputs as [|input inputs IH]; intros acc H.
  - cbn in H. apply Ok_inj in H as <-. cbn. lia.
  - cbn [fold_left mbind Result_bind] in H.
    destruct formats as [| | | | |l|];
      try (exfalso; clear IH; induction inputs; done).
    destruct (mapR (format_task input) l) as [ts|e] eqn:Hts;
      [|exfalso; clear IH; induction inputs; done].
    cbn [mbind Result_bind] in H. apply IH in H.
    rewrite H, length_app. apply mapR_length in Hts. cbn. lia.
Qed.

Lemma build_tasks_length (inputs : list string) (formats : JsVal)
    (tasks : list Task) :
  build_tasks inputs formats = Ok tasks →
  length tasks = (formats_length formats * length inputs)%nat.
Proof. intros H. by apply build_tasks_length_from in H. Qed.

(** ** The build *)

Lemma bundle_Ok_inv (env : Env) (self : Bili) (write : bool) :
  completion (bundle env self write) = Ok () →
  ∃ (inputFiles : list string) (tasks : list Task)
    (configs : list EngineConfig),
    resolve_inputs env self = Ok inputFiles ∧
    build_tasks inputFiles (resolve_formats self) = Ok tasks ∧
    task_config env self <$> tasks = Ok <$> configs ∧
    bundles (instance (bundle env self write))
    = (settle env (Js.truthy (opt self "watch")) write configs
              (bundles self)).2 ∧
    (formats_length (resolve_formats self) * length inputFiles
     ≤ size (bundles (instance (bundle env self write))))%nat.
Proof.
  unfold bundle.
  change (resolve_inputs env (set_pkg self _)) with (resolve_inputs env self).
  change (resolve_formats (set_pkg self _)) with (resolve_formats self).
  change (opt (set_pkg self _) "watch") with (opt self "watch").
  change (bundles (set_pkg self _)) with (bundles self).
  change (createConfig env (set_pkg self _)) with (task_config env self).
  destruct (resolve_inputs env self) as [inputFiles|e] eqn:Hin; [|done].
  destruct (length inputFiles =? 0)%nat; [done|].
  destruct (build_tasks inputFiles (resolve_formats self)) as [tasks|e]
    eqn:Htasks; [|done].
  cbn zeta.
  destruct (first_failure (task_config env self <$> tasks)) eqn:Hfirst;
    [done|].
  apply first_failure_none in Hfirst.
  set (configs := successes (task_config env self <$> tasks)) in *.
  destruct (settle env (Js.truthy (opt self "watch")) write configs
                   (bundles self)) as [[[]|e] b] eqn:Hsettle; [|done].
  cbn [completion instance]. unfold check_bundles.
  cbn [bundles set_bundles].
  destruct (size b <? formats_length (resolve_formats self) * length inputFiles)%nat
    eqn:Hsize.
  { by destruct (expect_str "filename" _). }
  intros _. exists inputFiles, tasks, configs.
  apply Nat.ltb_ge in Hsize. rewrite Hsettle. by repeat split.
Qed.

Lemma settled_size_le (env : Env) (self : Bili) (watching write : bool)
    (tasks : list Task) (configs : list EngineConfig) :
  task_config env self <$> tasks = Ok <$> configs →
  (size (settle env watching write configs ∅).2
   ≤ size (list_to_set ((fun c => oo_file (outputOptions c)) <$> configs)
           : gset string))%nat.
Proof.
  intros Hcfg. rewrite <- size_dom. apply subseteq_size.
  etrans; [apply settle_dom|].
  - revert configs Hcfg. induction tasks as [|t tasks IH];
      intros [|c configs] Hcfg; try done.
    injection Hcfg as Hc Hcfg. constructor; [|by apply IH].
    by eapply createConfig_plugins_store_under_file.
  - rewrite dom_empty_L. set_solver.
Qed.

(** C1: on a fresh instance, a [bundle] that completes leaves exactly
    [formats × inputFiles] entries in the artifact map; once every task
    has settled in a one-shot build, [bundle] either completes with that
    count or, the count being short, throws the [BiliError] about files
    emitted to the same path; and it never completes when two tasks have
    the same output path. *)
Theorem bundle_artifact_count (env : Env) (opts : gmap string JsVal)
    (write : bool) :
  let self := new_Bili env opts in
  let out := bundle env self write in
  let formats := resolve_formats self in
  (completion out = Ok () →
   ∃ inputFiles : list string,
     resolve_inputs env self = Ok inputFiles ∧
     size (bundles (instance out))
     = (formats_length formats * length inputFiles)%nat) ∧
  (∀ (inputFiles : list string) (tasks : list Task),
     Js.truthy (opt self "watch") = false →
     resolve_inputs env self = Ok inputFiles → inputFiles ≠ [] →
     build_tasks inputFiles formats = Ok tasks →
     Forall (task_settles env self write) tasks →
     (completion out = Ok () ∧
      size (bundles (instance out))
      = (formats_length formats * length inputFiles)%nat) ∨
     ((size (bundles (instance out))
       < formats_length formats * length inputFiles)%nat ∧
      ∃ filename : string,
        opt self "filename" = VStr filename ∧
        completion out
        = Throw (BiliError (collision_message env filename
                              (length inputFiles))))) ∧
  (∀ (inputFiles : list string) (tasks : list Task) (i j : nat)
     (ti tj : Task) (ci cj : EngineConfig),
     resolve_inputs env self = Ok inputFiles →
     build_tasks inputFiles formats = Ok tasks →
     i ≠ j → tasks !! i = Some ti → tasks !! j = Some tj →
     task_config env self ti = Ok ci → task_config env self tj = Ok cj →
     oo_file (outputOptions ci) = oo_file (outputOptions cj) →
     completion out ≠ Ok ()).
Proof.
  intros self out formats.
  assert (completion out = Ok () →
          ∃ (inputFiles : list string) (tasks : list Task)
            (configs : list EngineConfig),
            resolve_inputs env self = Ok inputFiles ∧
            build_tasks inputFiles formats = Ok tasks ∧
            task_config env self <$> tasks = Ok <$> configs ∧
            (size (bundles (instance out))
             ≤ size (list_to_set
                       ((fun c => oo_file (outputOptions c)) <$> configs)
                     : gset string))%nat ∧
            (formats_length formats * length inputFiles
             ≤ size (bundles (instance out)))%nat) as Hinv.
  { intros Hok. apply bundle_Ok_inv in Hok
      as (inputFiles & tasks & configs & Hin & Htasks & Hcfg & Hb & Hge).
    exists inputFiles, tasks, configs. repeat split; try done.
    fold out in Hb. rewrite Hb. by eapply settled_size_le. }
  assert (completion out = Ok () →
          ∃ inputFiles : list string,
            resolve_inputs env self = Ok inputFiles ∧
            size (bundles (instance out))
            = (formats_length formats * length inputFiles)%nat) as Hcount.
  { intros Hok. destruct (Hinv Hok)
      as (inputFiles & tasks & configs & Hin & Htasks & Hcfg & Hle & Hge).
    exists inputFiles. split; [done|].
    pose proof (size_list_to_set_le
                  ((fun c => oo_file (outputOptions c)) <$> configs)) as Hlen.
    rewrite length_fmap in Hlen.
    apply (f_equal length) in Hcfg. rewrite !length_fmap in Hcfg.
    apply build_tasks_length in Htasks. lia. }
  split; [exact Hcount|]. split.
  - intros inputFiles tasks Hwatch Hin Hne Htasks Hsettle.
    destruct (completion out) as [[]|e] eqn:Hout.
    { left. split; [done|].
      destruct (Hcount eq_refl) as (inputFiles' & Hin' & ->). congruence. }
    right. revert Hout. unfold out, bundle.
    change (resolve_inputs env (set_pkg self _)) with (resolve_inputs env self).
    change (resolve_formats (set_pkg self _)) with formats.
    change (opt (set_pkg self _) "watch") with (opt self "watch").
    change (bundles (set_pkg self _)) with (bundles self).
    change (createConfig env (set_pkg self _)) with (task_config env self).
    rewrite Hin, Htasks, Hwatch.
    destruct inputFiles as [|input inputFiles]; [done|]. cbn [length Nat.eqb].
    cbn zeta.
    assert (∃ configs, task_config env self <$> tasks = Ok <$> configs ∧
              Forall (fun c => ∃ codes,
                        rollup env (inputOptions c) (outputOptions c) write
                        = Ok codes) configs) as (configs & Hcfg & Hrun).
    { clear -Hsettle. induction Hsettle as [|t tasks (c & codes & Hc & Hr) _
                                              (configs & IH1 & IH2)].
      - by exists [].
      - exists (c :: configs). split; [|constructor; eauto].
        rewrite !fmap_cons. by rewrite Hc, IH1. }
    rewrite Hcfg.
    assert (first_failure (Ok <$> configs) = None) as ->
      by (clear; induction configs; done).
    assert (successes (Ok <$> configs) = configs) as ->.
    { clear. unfold successes. induction configs as [|c configs IH]; [done|].
      cbn. by rewrite IH. }
    assert (∀ b, (settle env false write configs b).1 = Ok ()) as Hjoin.
    { clear -Hrun. induction Hrun as [|c configs [codes Hc] _ IH]; intros b;
        [done|]. cbn [settle]. rewrite Hc. apply IH. }
    specialize (Hjoin (bundles self)).
    destruct (settle env false write configs (bundles self)) as [joined b].
    cbn in Hjoin. subst joined. cbn [completion instance].
    unfold check_bundles. cbn [bundles set_bundles].
    change (opt (set_bundles (set_pkg self _) b) "filename")
      with (opt self "filename").
    destruct (size b <? formats_length formats * length (input :: inputFiles))%nat
      eqn:Hsize; [|done].
    apply Nat.ltb_lt in Hsize. intros Hout. split; [done|].
    destruct tasks as [|t tasks].
    { apply build_tasks_length in Htasks. rewrite <- Htasks in Hsize.
      cbn in Hsize. lia. }
    inversion Hsettle as [|? ? (c & codes & Hc & _) _]; subst.
    unfold task_config in Hc. apply createConfig_inv in Hc
      as (? & ? & ? & ? & ? & Hname & _).
    unfold getFilename in Hname.
    apply bind_Ok_inv in Hname as (suffix & _ & Hname).
    apply bind_Ok_inv in Hname as (pattern & Hpattern & _).
    change (opt (set_pkg self _) "filename") with (opt self "filename")
      in Hpattern.
    destruct (opt self "filename") as [| | | |filename| |] eqn:Hfn; try done.
    apply Ok_inj in Hpattern as ->. exists pattern. split; [done|].
    cbn [expect_str mbind Result_bind] in Hout. by rewrite <- Hout.
  - intros inputFiles tasks i j ti tj ci cj Hin Htasks Hij Hi Hj Hci Hcj Hfile
           Hok.
    destruct (Hinv Hok)
      as (inputFiles' & tasks' & configs & Hin' & Htasks' & Hcfg & Hle & Hge).
    assert (inputFiles' = inputFiles) as -> by congruence.
    assert (tasks' = tasks) as -> by congruence.
    assert (∀ k t c, tasks !! k = Some t → task_config env self t = Ok c →
              configs !! k = Some c) as Hlookup.
    { intros k t c Hk Hc.
      apply (f_equal (fun l => l !! k)) in Hcfg.
      rewrite !list_lookup_fmap, Hk in Hcfg. cbn in Hcfg. rewrite Hc in Hcfg.
      destruct (configs !! k); [|done]. cbn in Hcfg. congruence. }
    pose proof (size_list_to_set_dup
                  ((fun c => oo_file (outputOptions c)) <$> configs) i j
                  (oo_file (outputOptions ci)) Hij) as Hdup.
    rewrite !list_lookup_fmap, (Hlookup i ti ci), (Hlookup j tj cj) in Hdup
      by done.
    cbn in Hdup. rewrite Hfile in Hdup. specialize (Hdup eq_refl eq_refl).
    rewrite length_fmap in Hdup.
    apply (f_equal length) in Hcfg. rewrite !length_fmap in Hcfg.
    apply build_tasks_length in Htasks. lia.
Qed.

Lemma bundle_artifact_count_witness :
  let self := new_Bili sample_env sample_options in
  let out := bundle sample_env self true in
  (∃ inputFiles : list string,
     resolve_inputs sample_env self = Ok inputFiles ∧
     size (bundles (instance out))
     = (formats_length (resolve_formats self) * length inputFiles)%nat) ∧
  ((completion out = Ok () ∧
    size (bundles (instance out))
    = (formats_length (resolve_formats self) * 2)%nat) ∨
   ((size (bundles (instance out))
     < formats_length (resolve_formats self) * 2)%nat ∧
    ∃ filename : string,
      opt self "filename" = VStr filename ∧
      completion out
      = Throw (BiliError (collision_message sample_env filename 2)))) ∧
  completion (bundle sample_env (new_Bili sample_env clashing_options) true)
  ≠ Ok ().
Proof.
  intros self out. split; [|split].
  - apply (proj1 (bundle_artifact_count sample_env sample_options true)).
    vm_compute. reflexivity.
  - apply (proj1 (proj2 (bundle_artifact_count sample_env sample_options true))
             ["src/index.js"; "src/cli.js"]
             [mkTask "src/index.js" "cjs" false;
              mkTask "src/index.js" "umd" true;
              mkTask "src/index.js" "es" false;
              mkTask "src/cli.js" "cjs" false;
              mkTask "src/cli.js" "umd" true;
              mkTask "src/cli.js" "es" false]).
    + vm_compute. reflexivity.
    + vm_compute. reflexivity.
    + discriminate.
    + vm_compute. reflexivity.
    + repeat constructor; eexists _, _; split; vm_compute; reflexivity.
  - apply (proj2 (proj2 (bundle_artifact_count sample_env clashing_options true))
             ["src/index.js"; "src/cli.js"]
             [mkTask "src/index.js" "cjs" false; mkTask "src/cli.js" "cjs" false]
             0%nat 1%nat
             (mkTask "src/index.js" "cjs" false)
             (mkTask "src/cli.js" "cjs" false)
             (match task_config sample_env
                      (new_Bili sample_env clashing_options)
                      (mkTask "src/index.js" "cjs" false) with
              | Ok c => c | Throw _ => no_config end)
             (match task_config sample_env
                      (new_Bili sample_env clashing_options)
                      (mkTask "src/cli.js" "cjs" false) with
              | Ok c => c | Throw _ => no_config end)).
    all: try (vm_compute; reflexivity).
    discriminate.
Defined.

(** ** Path scans *)

Lemma component_end_spec (p : string) (n : nat) :
  (component_end p n ≤ n)%nat ∧
  (∀ i, (component_end p n ≤ i)%nat → (i < n)%nat →
        Ascii.eqb (Path.char_at p i) Str.slash = true) ∧
  (component_end p n = 0%nat ∨
   Ascii.eqb (Path.char_at p (component_end p n - 1)) Str.slash = false).
Proof.
  induction n as [|n (IH1 & IH2 & IH3)]; cbn [component_end].
  - split; [lia|]. split; [intros; lia|]. by left.
  - destruct (Ascii.eqb (Path.char_at p n) Str.slash) eqn:E.
    + split; [lia|]. split; [|done].
      intros i Hi Hn. destruct (decide (i = n)) as [->|]; [done|].
      apply IH2; lia.
    + split; [lia|]. split; [intros; lia|].
      right. by replace (S n - 1)%nat with n by lia.
Qed.

Lemma component_start_spec (p : string) (n : nat) :
  (component_start p n ≤ n)%nat ∧
  (∀ i, (component_start p n ≤ i)%nat → (i < n)%nat →
        Ascii.eqb (Path.char_at p i) Str.slash = false) ∧
  (component_start p n = 0%nat ∨
   Ascii.eqb (Path.char_at p (component_start p n - 1)) Str.slash = true).
Proof.
  induction n as [|n (IH1 & IH2 & IH3)]; cbn [component_start].
  - split; [lia|]. split; [intros; lia|]. by left.
  - destruct (Ascii.eqb (Path.char_at p n) Str.slash) eqn:E.
    + split; [lia|]. split; [intros; lia|].
      right. by replace (S n - 1)%nat with n by lia.
    + split; [lia|]. split; [|done].
      intros i Hi Hn. destruct (decide (i = n)) as [->|]; [done|].
      apply IH2; lia.
Qed.

Lemma component_start_lt (p : string) (e : nat) :
  (0 < e)%nat →
  Ascii.eqb (Path.char_at p (e - 1)) Str.slash = false →
  (component_start p e < e)%nat.
Proof.
  intros He Hlast. destruct e as [|e]; [lia|].
  cbn [component_start]. replace (S e - 1)%nat with e in Hlast by lia.
  rewrite Hlast. pose proof (component_start_spec p e). lia.
Qed.

Lemma length_substring (s : string) (n m : nat) :
  (n + m ≤ String.length s)%nat →
  String.length (String.substring n m s) = m.
Proof.
  revert n m. induction s as [|c s IH]; intros n m H; cbn in H.
  - by replace n with 0%nat by lia; replace m with 0%nat by lia.
  - destruct n as [|n]; cbn.
    + destruct m as [|m]; [done|]. cbn. f_equal. apply IH. cbn. lia.
    + apply IH. lia.
Qed.

Lemma char_at_substring (s : string) (n m k : nat) :
  (k < m)%nat →
  Path.char_at (String.substring n m s) k = Path.char_at s (n + k).
Proof.
  intros H. unfold Path.char_at.
  rewrite String.substring_correct1 by done. by rewrite Nat.add_comm.
Qed.

Lemma substring_app (s : string) (n m1 m2 : nat) :
  String.substring n m1 s +:+ String.substring (n + m1) m2 s
  = String.substring n (m1 + m2) s.
Proof.
  revert n m1. induction s as [|c s IH]; intros n m1.
  - destruct n, m1, m2; done.
  - destruct n as [|n]; cbn [String.substring Nat.add].
    + destruct m1 as [|m1]; cbn [String.substring Nat.add].
      * by rewrite str_app_nil_l.
      * rewrite str_app_cons. f_equal. apply (IH 0%nat).
    + apply IH.
Qed.

Lemma slice_app (p : string) (a b c : nat) :
  (a ≤ b)%nat → (b ≤ c)%nat →
  Str.slice p (Z.of_nat a) (Z.of_nat b) +:+ Str.slice p (Z.of_nat b) (Z.of_nat c)
  = Str.slice p (Z.of_nat a) (Z.of_nat c).
Proof.
  intros Hab Hbc. unfold Str.slice.
  replace (Z.to_nat (Z.of_nat b)) with (a + (b - a))%nat by lia.
  replace (Z.to_nat (Z.of_nat a)) with a by lia.
  replace (Z.to_nat (Z.of_nat b - Z.of_nat a)) with (b - a)%nat by lia.
  replace (Z.to_nat (Z.of_nat c - Z.of_nat b)) with (c - b)%nat by lia.
  replace (Z.to_nat (Z.of_nat c - Z.of_nat a)) with ((b - a) + (c - b))%nat
    by lia.
  apply substring_app.
Qed.

Ltac ztrue :=
  symmetry; first [apply Z.leb_le | apply Z.eqb_eq | apply Z.ltb_lt]; lia.
Ltac zfalse :=
  symmetry; first [apply Z.leb_gt | apply Z.eqb_neq | apply Z.ltb_ge]; lia.

Section LastComponent.

Context (p : string) (s e : nat).
Hypothesis Hep : (e ≤ String.length p)%nat.
Hypothesis Htrail :
  ∀ i, (e ≤ i)%nat → (i < String.length p)%nat →
       Ascii.eqb (Path.char_at p i) Str.slash = true.
Hypothesis Hcomp :
  ∀ i, (s ≤ i)%nat → (i < e)%nat →
       Ascii.eqb (Path.char_at p i) Str.slash = false.
Hypothesis Hstart :
  s = 0%nat ∨ Ascii.eqb (Path.char_at p (s - 1)) Str.slash = true.
Hypothesis Hse : (s ≤ e)%nat.
Hypothesis Hne : (0 < e)%nat → (s < e)%nat.

Lemma basename_scan_in_component (n : nat) :
  (s ≤ n)%nat → (n ≤ e)%nat → (0 < e)%nat →
  Path.basename_scan p n 0 (Z.of_nat e) false = (Z.of_nat s, Z.of_nat e).
Proof.
  intros Hsn Hn He. induction n as [|n IH]; cbn [Path.basename_scan].
  - by replace s with 0%nat by lia.
  - destruct (decide (s = S n)) as [Hs|Hs].
    + destruct Hstart as [?|Hslash]; [lia|].
      replace (s - 1)%nat with n in Hslash by lia. rewrite Hslash. cbn.
      f_equal. lia.
    + rewrite Hcomp by lia.
      replace (Z.of_nat e =? -1) with false by lia. apply IH; lia.
Qed.

Lemma basename_scan_trailing (n : nat) :
  (e ≤ n)%nat → (n ≤ String.length p)%nat →
  Path.basename_scan p n 0 (-1) true
  = if (e =? 0)%nat then (0, -1) else (Z.of_nat s, Z.of_nat e).
Proof.
  intros Hen Hn. induction n as [|n IH]; cbn [Path.basename_scan].
  - by replace e with 0%nat by lia.
  - destruct (decide (e = S n)) as [He|He].
    + rewrite Hcomp by lia. cbn.
      replace (e =? 0)%nat with false by (symmetry; apply Nat.eqb_neq; lia).
      replace (Z.of_nat n + 1) with (Z.of_nat e) by lia.
      apply basename_scan_in_component; lia.
    + rewrite Htrail by lia. cbn. apply IH; lia.
Qed.

Lemma basename_no_ext :
  Path.basename p "" = if (e =? 0)%nat then "" else Str.slice p (Z.of_nat s) (Z.of_nat e).
Proof.
  unfold Path.basename. cbn [String.length Nat.ltb Nat.leb andb].
  rewrite basename_scan_trailing by lia.
  destruct (e =? 0)%nat; [done|].
  by replace (Z.of_nat e =? -1) with false by lia.
Qed.

Lemma extname_scan_in_component (n : nat) (startDot preDotState : Z) :
  (s ≤ n)%nat → (n < e)%nat → dot_state n e startDot preDotState →
  ∃ startDot' preDotState' : Z,
    Path.extname_scan p n startDot 0 (Z.of_nat e) false preDotState
    = (startDot', Z.of_nat s, Z.of_nat e, preDotState') ∧
    dot_state s e startDot' preDotState'.
Proof.
  intros Hsn Hn. revert startDot preDotState.
  induction n as [|n IH]; intros startDot preDotState Hdot;
    cbn [Path.extname_scan].
  - replace s with 0%nat in * by lia. eauto.
  - destruct (decide (s = S n)) as [Hs|Hs].
    + destruct Hstart as [?|Hslash]; [lia|].
      replace (s - 1)%nat with n in Hslash by lia. rewrite Hslash. cbn.
      exists startDot, preDotState. split; [|by rewrite Hs].
      do 3 f_equal. lia.
    + rewrite Hcomp by lia.
      replace (Z.of_nat e =? -1) with false by lia.
      destruct (Ascii.eqb (Path.char_at p n) Str.dot).
      * destruct (startDot =? -1) eqn:Hd.
        { apply IH; [lia..|]. right. unfold dot_state in Hdot. lia. }
        destruct (negb (preDotState =? 1));
          (apply IH; [lia..|]; right; unfold dot_state in Hdot; lia).
      * destruct (negb (startDot =? -1)) eqn:Hd;
          (apply IH; [lia..|]; unfold dot_state in *; lia).
Qed.

Lemma extname_scan_trailing (n : nat) :
  (e ≤ n)%nat → (n ≤ String.length p)%nat →
  (e = 0%nat ∧
   Path.extname_scan p n (-1) 0 (-1) true 0 = (-1, 0, -1, 0)) ∨
  ((0 < e)%nat ∧
   ∃ startDot preDotState : Z,
     Path.extname_scan p n (-1) 0 (-1) true 0
     = (startDot, Z.of_nat s, Z.of_nat e, preDotState) ∧
     dot_state s e startDot preDotState).
Proof.
  intros Hen Hn. induction n as [|n IH]; cbn [Path.extname_scan].
  - left. split; [lia|done].
  - destruct (decide (e = S n)) as [He|He].
    + right. split; [lia|]. rewrite Hcomp by lia. cbn [Z.eqb].
      replace (Z.of_nat n + 1) with (Z.of_nat e) by lia.
      destruct (decide (s = n)) as [Hs|Hs].
      * (* the component is the single character at [n] *)
        destruct n as [|n'].
        { cbn [Path.extname_scan].
          destruct (Ascii.eqb (Path.char_at p 0) Str.dot); cbn;
            eexists _, _; (split; [by rewrite Hs|]);
            unfold dot_state; lia. }
        cbn [Path.extname_scan].
        destruct Hstart as [?|Hslash]; [lia|].
        replace (s - 1)%nat with n' in Hslash by lia. rewrite Hslash.
        destruct (Ascii.eqb (Path.char_at p (S n')) Str.dot); cbn;
          eexists _, _; (split; [do 3 f_equal; lia|]);
          unfold dot_state; lia.
      * destruct (Ascii.eqb (Path.char_at p n) Str.dot); cbn;
          (apply extname_scan_in_component; [lia..|]);
          unfold dot_state; lia.
    + rewrite Htrail by lia. cbn. apply IH; lia.
Qed.

Lemma extname_cases :
  Path.extname p = "" ∨
  ∃ d : nat, (s < d)%nat ∧ (d < e)%nat ∧
    Path.extname p = Str.slice p (Z.of_nat d) (Z.of_nat e).
Proof.
  unfold Path.extname.
  destruct (extname_scan_trailing (String.length p))
    as [[_ ->]|[He (startDot & preDotState & -> & Hdot)]]; [lia..|by left|].
  destruct (startDot =? -1) eqn:Hd; [by left|].
  destruct (Z.of_nat e =? -1); [by left|].
  destruct (preDotState =? 0) eqn:Hpre; [by left|].
  cbn [orb].
  destruct ((preDotState =? 1) && (startDot =? Z.of_nat e - 1) &&
            (startDot =? Z.of_nat s + 1)); [by left|].
  right. exists (Z.to_nat startDot). unfold dot_state in Hdot.
  split; [lia|]. split; [lia|]. by replace (Z.of_nat (Z.to_nat startDot))
    with startDot by lia.
Qed.

(** From here on [d] is where the extension starts. *)
Context (d : nat).
Hypothesis Hsd : (s < d)%nat.
Hypothesis Hde : (d < e)%nat.

Local Abbreviation ext := (Str.slice p (Z.of_nat d) (Z.of_nat e)).

Lemma ext_length : String.length ext = (e - d)%nat.
Proof.
  unfold Str.slice. rewrite length_substring; lia.
Qed.

Lemma ext_char (k : nat) :
  (d ≤ k)%nat → (k < e)%nat →
  Path.char_at ext (k - d) = Path.char_at p k.
Proof.
  intros Hdk Hke. unfold Str.slice.
  rewrite char_at_substring by lia. f_equal. lia.
Qed.

Lemma basename_ext_scan_before (n : nat) :
  (s ≤ n)%nat → (n ≤ d)%nat →
  Path.basename_ext_scan p ext n 0 (Z.of_nat d) false (-1) (Z.of_nat e)
  = (Z.of_nat s, Z.of_nat d, Z.of_nat e).
Proof.
  intros Hsn Hnd. induction n as [|n IH]; cbn [Path.basename_ext_scan].
  - by replace s with 0%nat by lia.
  - destruct (decide (s = S n)) as [Hs|Hs].
    + destruct Hstart as [?|Hslash]; [lia|].
      replace (s - 1)%nat with n in Hslash by lia. rewrite Hslash. cbn.
      do 2 f_equal. lia.
    + rewrite Hcomp by lia.
      replace (Z.of_nat e =? -1) with false by lia. cbn. apply IH; lia.
Qed.

Lemma basename_ext_scan_matching (n : nat) (matchedSlash : bool)
    (firstNonSlashEnd : Z) :
  (d ≤ n)%nat → (n ≤ e)%nat →
  (n = e ∧ firstNonSlashEnd = -1) ∨
  (firstNonSlashEnd = Z.of_nat e ∧ matchedSlash = false) →
  Path.basename_ext_scan p ext n 0
    (if decide (n = d) then Z.of_nat d else -1) matchedSlash
    (Z.of_nat n - Z.of_nat d - 1) firstNonSlashEnd
  = (Z.of_nat s, Z.of_nat d, Z.of_nat e).
Proof.
  intros Hdn. revert matchedSlash firstNonSlashEnd.
  induction n as [|n IH]; intros matchedSlash firstNonSlashEnd Hne' Hstate;
    [lia|].
  destruct (decide (S n = d)) as [Hn|Hn].
  { destruct Hstate as [[? _]|[-> ->]]; [lia|].
    replace (Z.of_nat (S n) - Z.of_nat d - 1) with (-1) by lia.
    apply basename_ext_scan_before; lia. }
  cbn [Path.basename_ext_scan]. rewrite Hcomp by lia.
  assert ((if firstNonSlashEnd =? -1 then (false, Z.of_nat n + 1)
           else (matchedSlash, firstNonSlashEnd)) = (false, Z.of_nat e))
    as ->.
  { destruct Hstate as [[He ->]|[-> ->]].
    - cbn. f_equal. lia.
    - by replace (Z.of_nat e =? -1) with false by lia. }
  replace (0 <=? Z.of_nat (S n) - Z.of_nat d - 1) with true by ztrue.
  replace (Z.to_nat (Z.of_nat (S n) - Z.of_nat d - 1)) with (n - d)%nat
    by lia.
  rewrite ext_char by lia. rewrite Ascii.eqb_refl.
  destruct (decide (n = d)) as [->|Hnd].
  - replace (Z.of_nat (S d) - Z.of_nat d - 1 - 1 =? -1) with true by ztrue.
    replace (Z.of_nat (S d) - Z.of_nat d - 1 - 1) with (-1) by lia.
    apply basename_ext_scan_before; lia.
  - replace (Z.of_nat (S n) - Z.of_nat d - 1 - 1 =? -1) with false by zfalse.
    replace (Z.of_nat (S n) - Z.of_nat d - 1 - 1)
      with (Z.of_nat n - Z.of_nat d - 1) by lia.
    specialize (IH ltac:(lia) false (Z.of_nat e) ltac:(lia)
                   ltac:(by right)).
    by destruct (decide (n = d)).
Qed.

Lemma basename_ext_scan_trailing (n : nat) :
  (e ≤ n)%nat → (n ≤ String.length p)%nat →
  Path.basename_ext_scan p ext n 0 (-1) true
    (Z.of_nat (String.length ext) - 1) (-1)
  = (Z.of_nat s, Z.of_nat d, Z.of_nat e).
Proof.
  intros Hen Hn. induction n as [|n IH]; [lia|].
  destruct (decide (e = S n)) as [He|He].
  - pose proof (basename_ext_scan_matching (S n) true (-1)) as H.
    destruct (decide (S n = d)); [lia|].
    rewrite ext_length.
    replace (Z.of_nat (e - d) - 1) with (Z.of_nat (S n) - Z.of_nat d - 1)
      by lia.
    apply H; [lia..|]. by left.
  - cbn [Path.basename_ext_scan]. rewrite Htrail by lia. cbn.
    apply IH; lia.
Qed.

Lemma basename_with_ext :
  Path.basename p ext = Str.slice p (Z.of_nat s) (Z.of_nat d).
Proof.
  unfold Path.basename. rewrite ext_length.
  replace (0 <? e - d)%nat with true by (symmetry; apply Nat.ltb_lt; lia).
  replace (e - d <=? String.length p)%nat with true
    by (symmetry; apply Nat.leb_le; lia).
  cbn [andb].
  destruct (String.eqb_spec ext p) as [Heq|_].
  { apply (f_equal String.length) in Heq. rewrite ext_length in Heq. lia. }
  rewrite <- ext_length, basename_ext_scan_trailing by lia.
  replace (Z.of_nat s =? Z.of_nat d) with false by zfalse.
  by replace (Z.of_nat d =? -1) with false by zfalse.
Qed.

End LastComponent.

(** The extension [extname] reports is a suffix of the file name
    [basename] reports, and [basename] with that extension returns what
    is left of the file name. *)
Lemma basename_extname_split (res : string) :
  Path.basename res (Path.extname res) +:+ Path.extname res
  = Path.basename res "".
Proof.
  set (e := component_end res (String.length res)).
  set (s := component_start res e).
  destruct (component_end_spec res (String.length res)) as (Hep & Htrail & Hlast).
  destruct (component_start_spec res e) as (Hse & Hcomp & Hstart).
  fold e in Hep, Htrail, Hlast. fold s in Hse, Hcomp, Hstart.
  assert ((0 < e)%nat → (s < e)%nat) as Hne.
  { intros He. destruct Hlast as [?|Hlast]; [lia|].
    by apply component_start_lt. }
  destruct (extname_cases res s e Hep Htrail Hcomp Hstart Hse Hne)
    as [->|(d & Hsd & Hde & ->)].
  - by rewrite str_app_nil_r.
  - rewrite (basename_with_ext res s e Hep Htrail Hcomp Hstart Hse Hne d Hsd Hde).
    rewrite (basename_no_ext res s e Hep Htrail Hcomp Hstart Hse Hne).
    replace (e =? 0)%nat with false by (symmetry; apply Nat.eqb_neq; lia).
    apply slice_app; lia.
Qed.

Lemma char_at_no_slash (res : string) (i : nat) :
  Str.has_char Str.slash res = false → (i < String.length res)%nat →
  Ascii.eqb (Path.char_at res i) Str.slash = false.
Proof.
  revert i. induction res as [|c res IH]; intros i Hno Hi; cbn in Hi; [lia|].
  cbn in Hno. apply orb_false_iff in Hno as [Hc Hno].
  destruct i as [|i]; [done|].
  unfold Path.char_at. cbn. apply IH; [done|lia].
Qed.

Lemma substring_all (s : string) : String.substring 0 (String.length s) s = s.
Proof. induction s as [|c s IH]; [done|]. cbn. by rewrite IH. Qed.

(** A name without a slash is its own file name. *)
Lemma basename_without_directory (res : string) :
  Str.has_char Str.slash res = false → Path.basename res "" = res.
Proof.
  intros Hno.
  rewrite (basename_no_ext res 0 (String.length res)); try lia.
  - destruct res as [|c res]; [done|]. cbn [String.length Nat.eqb].
    unfold Str.slice.
    replace (Z.to_nat (Z.of_nat (S (String.length res)) - Z.of_nat 0))
      with (String.length (String c res)) by (cbn; lia).
    apply substring_all.
  - intros i _ Hi. by apply char_at_no_slash.
Qed.

Lemma has_char_chars (c : ascii) (s : string) :
  (∀ i, (i < String.length s)%nat →
        Ascii.eqb (Path.char_at s i) c = false) →
  Str.has_char c s = false.
Proof.
  induction s as [|a s IH]; intros H; [done|]. cbn [Str.has_char].
  apply orb_false_iff. split.
  - apply (H 0%nat). cbn. lia.
  - apply IH. intros i Hi. apply (H (S i)). cbn. lia.
Qed.

Lemma slice_no_slash (p : string) (a b : nat) :
  (a ≤ b)%nat → (b ≤ String.length p)%nat →
  (∀ i, (a ≤ i)%nat → (i < b)%nat →
        Ascii.eqb (Path.char_at p i) Str.slash = false) →
  Str.has_char Str.slash (Str.slice p (Z.of_nat a) (Z.of_nat b)) = false.
Proof.
  intros Hab Hb Hno. unfold Str.slice.
  replace (Z.to_nat (Z.of_nat b - Z.of_nat a)) with (b - a)%nat by lia.
  rewrite Nat2Z.id. apply has_char_chars. intros i Hi.
  rewrite length_substring in Hi by lia.
  rewrite char_at_substring by done. apply Hno; lia.
Qed.

Lemma has_char_app (c : ascii) (a b : string) :
  Str.has_char c (a +:+ b) = Str.has_char c a || Str.has_char c b.
Proof.
  induction a as [|x a IH]; [done|].
  rewrite str_app_cons. cbn [Str.has_char]. by rewrite IH, orb_assoc.
Qed.

(** Neither the stem nor the extension of the last component of a path
    holds a slash. *)
Lemma last_component_no_slash (p : string) :
  Str.has_char Str.slash (Path.basename p (Path.extname p)) = false ∧
  Str.has_char Str.slash (Path.extname p) = false.
Proof.
  set (e := component_end p (String.length p)).
  set (s := component_start p e).
  destruct (component_end_spec p (String.length p)) as (Hep & Htrail & Hlast).
  destruct (component_start_spec p e) as (Hse & Hcomp & Hstart).
  fold e in Hep, Htrail, Hlast. fold s in Hse, Hcomp, Hstart.
  assert ((0 < e)%nat → (s < e)%nat) as Hne.
  { intros He. destruct Hlast as [?|Hlast]; [lia|].
    by apply component_start_lt. }
  destruct (extname_cases p s e Hep Htrail Hcomp Hstart Hse Hne)
    as [->|(d & Hsd & Hde & ->)].
  - split; [|done].
    rewrite (basename_no_ext p s e Hep Htrail Hcomp Hstart Hse Hne).
    destruct (e =? 0)%nat; [done|]. by apply slice_no_slash.
  - rewrite (basename_with_ext p s e Hep Htrail Hcomp Hstart Hse Hne
               d Hsd Hde).
    split; (apply slice_no_slash; [lia|lia|]); intros i ? ?; apply Hcomp; lia.
Qed.

(** ** Output file names *)

(** With the pattern [[name][suffix].js], the input [src/index.js] and
    the format [cjs], the output file name is [index.cjs.js], and
    [index.cjs.min.js] when compressing; in general, the file name of the
    templated name is [stem ++ ext], with [ext] its extension, and the
    compressed output name is [stem ++ ".min" ++ ext]; a templated name
    without a slash is that file name itself. *)
Lemma getFilename_min_marker :
  getFilename "src/index.js" "cjs" (VStr "[name][suffix].js") false VUndefined
  = Ok "index.cjs.js" ∧
  getFilename "src/index.js" "cjs" (VStr "[name][suffix].js") true VUndefined
  = Ok "index.cjs.min.js" ∧
  ∀ (input format : string) (filename name : JsVal) (res : string),
    getFilename input format filename false name = Ok res →
    ∃ stem : string,
      Path.basename res "" = stem +:+ Path.extname res ∧
      (Str.has_char Str.slash res = false → res = stem +:+ Path.extname res) ∧
      getFilename input format filename true name
      = Ok (stem +:+ ".min" +:+ Path.extname res).
Proof.
  split; [reflexivity|]. split; [reflexivity|].
  intros input format filename name res. unfold getFilename.
  intros H. apply bind_Ok_inv in H as (suffix & -> & H).
  apply bind_Ok_inv in H as (pattern & -> & H).
  apply Ok_inj in H. cbn [mbind Result_bind]. rewrite H.
  exists (Path.basename res (Path.extname res)).
  split; [symmetry; apply basename_extname_split|]. split; [|done].
  intros Hno. rewrite basename_extname_split. symmetry.
  by apply basename_without_directory.
Qed.

(** C4: with the pattern [lib/[name][suffix].js], the input
    [src/index.js] and the format [cjs], the output file name is
    [lib/index.cjs.js], but [index.cjs.min.js] when compressing: the
    compress branch builds the name from the last component of the
    templated name and drops its directory, so that a compressed output
    name never holds a slash, whatever the pattern. *)
Theorem getFilename_compress_drops_directory :
  getFilename "src/index.js" "cjs" (VStr "lib/[name][suffix].js") false VUndefined
  = Ok "lib/index.cjs.js" ∧
  getFilename "src/index.js" "cjs" (VStr "lib/[name][suffix].js") true VUndefined
  = Ok "index.cjs.min.js" ∧
  ∀ (input format : string) (filename name : JsVal) (out : string),
    getFilename input format filename true name = Ok out →
    Str.has_char Str.slash out = false.
Proof.
  split; [reflexivity|]. split; [reflexivity|].
  intros input format filename name out. unfold getFilename.
  intros H. apply bind_Ok_inv in H as (suffix & _ & H).
  apply bind_Ok_inv in H as (pattern & _ & H).
  apply Ok_inj in H as <-.
  destruct (last_component_no_slash
              (template pattern
                 [("name", Js.to_string
                             (Js.or name (VStr (getNameFromInput input))));
                  ("suffix", suffix)])) as [Hstem Hext].
  by rewrite !has_char_app, Hstem, Hext.
Qed.

(** * Further properties of the code *)

(** ** The configuration of a task *)

(** X1: the output path of every configuration is what [path.resolve]
    gives for the [cwd] option, the [outDir] option and the output file
    name, and it is an absolute path when the process's working directory
    is.  When [cwd] and [outDir] are strings it is the resolution of the
    three; when the output file name is absolute it is the resolution of
    that name alone, whatever [cwd] and [outDir] hold. *)
Theorem createConfig_output_path (env : Env) (self : Bili) (t : Task)
    (cfg : EngineConfig) :
  Str.startsWith (process_cwd env) "/" = true →
  createConfig env self t = Ok cfg →
  ∃ outFilename : string,
    getFilename (task_input t) (task_format t) (opt self "filename")
                (task_compress t) (opt self "name") = Ok outFilename ∧
    path_resolve (process_cwd env)
                 [opt self "cwd"; opt self "outDir"; VStr outFilename]
    = Ok (output_file cfg) ∧
    Str.startsWith (output_file cfg) "/" = true ∧
    (∀ cwd outDir : string,
       opt self "cwd" = VStr cwd → opt self "outDir" = VStr outDir →
       output_file cfg
       = Path.resolve (process_cwd env) [cwd; outDir; outFilename]) ∧
    (Str.startsWith outFilename "/" = true →
     output_file cfg = Path.resolve (process_cwd env) [outFilename]).
Proof.
  intros Hcwd H. apply createConfig_inv in H
    as (outFilename & file & ? & ? & ? & Hname & Hfile & _ & _ & _ & _ &
        Hout & _).
  unfold output_file. rewrite Hout. unfold resolveCwd in Hfile.
  exists outFilename. split; [done|]. split; [done|].
  split; [by eapply path_resolve_absolute|]. split.
  - intros cwd outDir Hc Ho. rewrite Hc, Ho in Hfile.
    pose proof (path_resolve_strs (process_cwd env) [cwd; outDir; outFilename])
      as Hstrs.
    cbn [fmap list_fmap] in Hstrs. rewrite Hstrs in Hfile.
    by apply Ok_inj in Hfile.
  - intros Habs.
    pose proof (path_resolve_last_absolute (process_cwd env)
                  [opt self "cwd"; opt self "outDir"] outFilename Habs)
      as Hlast.
    cbn [app] in Hlast. rewrite Hlast in Hfile. by apply Ok_inj in Hfile.
Qed.

Lemma createConfig_output_path_witness :
  ∃ outFilename : string,
    getFilename (task_input plain_task) (task_format plain_task)
                (opt (new_Bili sample_env numeric_outDir_options) "filename")
                (task_compress plain_task)
                (opt (new_Bili sample_env numeric_outDir_options) "name")
    = Ok outFilename ∧
    path_resolve "/proj"
                 [opt (new_Bili sample_env numeric_outDir_options) "cwd";
                  opt (new_Bili sample_env numeric_outDir_options) "outDir";
                  VStr outFilename]
    = Ok (output_file numeric_outDir_config) ∧
    Str.startsWith (output_file numeric_outDir_config) "/" = true ∧
    (∀ cwd outDir : string,
       opt (new_Bili sample_env numeric_outDir_options) "cwd" = VStr cwd →
       opt (new_Bili sample_env numeric_outDir_options) "outDir" = VStr outDir →
       output_file numeric_outDir_config
       = Path.resolve "/proj" [cwd; outDir; outFilename]) ∧
    (Str.startsWith outFilename "/" = true →
     output_file numeric_outDir_config = Path.resolve "/proj" [outFilename]).
Proof.
  apply (createConfig_output_path sample_env
           (new_Bili sample_env numeric_outDir_options) plain_task
           numeric_outDir_config);
    vm_compute; reflexivity.
Defined.

Lemma loadUserPlugin_not_collector (env : Env) (self : Bili)
    (filename : string) (pluginName : JsVal) (p : Plugin) :
  loadUserPlugin env self filename pluginName = Ok (Some p) →
  is_collector p = false.
Proof.
  unfold loadUserPlugin. destruct (Js.typeof pluginName).
  2: { destruct (Js.truthy pluginName); intros H; apply Ok_inj in H;
       [|done]. by injection H as <-. }
  all: intros H; apply bind_Ok_inv in H as (pluginOptions & _ & H);
    destruct (localRequire env _); [done|];
    destruct (call_plugin env _ _); [done|];
    apply Ok_inj in H; by injection H as <-.
Qed.

Lemma loadUserPlugins_no_collector (env : Env) (self : Bili)
    (filename : string) (userPlugins : list (option Plugin)) :
  loadUserPlugins env self filename = Ok userPlugins →
  Forall (fun p => is_collector p = false) (omap id userPlugins).
Proof.
  unfold loadUserPlugins.
  destruct (Js.or (getArrayOption self "plugin") (VArr [])); try done.
  intros H%mapR_Ok_inv. apply Forall_omap_id.
  induction H as [|x o ? ? Hx _ IH]; constructor; [|done].
  intros p ->. by eapply loadUserPlugin_not_collector.
Qed.

Lemma pipeline_shape (env : Env) (self : Bili) (t : Task)
    (cfg : EngineConfig) :
  createConfig env self t = Ok cfg →
  ∃ before after : list Plugin,
    io_plugins (inputOptions cfg)
    = PModule "rollup-plugin-hashbang" :: before ++
      PCollector (output_file cfg) (opt self "outDir") (task_input t)
                 (task_format t) (task_compress t) :: after ∧
    Forall (fun p => is_collector p = false) (before ++ after).
Proof.
  intros H. apply createConfig_inv in H
    as (outFilename & file & jsPlugin & declared & userPlugins &
        _ & _ & _ & _ & Huser & Hplugins & Hout & _).
  apply loadUserPlugins_no_collector in Huser.
  unfold output_file. rewrite Hout, Hplugins.
  unfold pipeline_tail, when.
  exists (omap id userPlugins ++
          omap id [if Js.is_str (Js.or (opt self "js") (VStr "buble")) "buble"
                   then Some (PModule "rollup-plugin-babel") else None;
                   Some (PModule jsPlugin);
                   if Js.truthy match opt self "inline" with
                                | VUndefined => VBool (String.eqb (task_format t) "umd")
                                | v => v
                                end
                   then Some (PModule "rollup-plugin-commonjs") else None;
                   if Js.truthy match opt self "inline" with
                                | VUndefined => VBool (String.eqb (task_format t) "umd")
                                | v => v
                                end
                   then Some (PModule "rollup-plugin-node-resolve") else None;
                   Some (PModule "rollup-plugin-json");
                   if task_compress t
                   then Some (PModule "rollup-plugin-uglify") else None;
                   if Js.truthy (opt self "alias")
                   then Some (PModule "rollup-plugin-alias") else None;
                   if Js.truthy (opt self "replace")
                   then Some (PModule "rollup-plugin-replace") else None]),
         (omap id [if Js.truthy (opt self "env")
                   then Some (PModule "rollup-plugin-replace") else None]).
  split.
  - rewrite !omap_app. cbn [omap list_omap app id].
    rewrite <- app_assoc. f_equal. f_equal.
    destruct (Js.is_str _ "buble"),
      (Js.truthy match opt self "inline" with
                 | VUndefined => VBool (String.eqb (task_format t) "umd")
                 | v => v
                 end),
      (task_compress t), (Js.truthy (opt self "alias")),
      (Js.truthy (opt self "replace")), (Js.truthy (opt self "env"));
      reflexivity.
  - rewrite !Forall_app. split; [split; [done|]|].
    + apply Forall_omap_id.
      repeat (constructor;
              [intros p Hp; repeat case_match; by simplify_eq|]).
      constructor.
    + apply Forall_omap_id.
      repeat (constructor;
              [intros p Hp; repeat case_match; by simplify_eq|]).
      constructor.
Qed.



(** ** What the collector records *)

Lemma hooks_without_collector (env : Env) (plugins : list Plugin)
    (code : string) (b : gmap string ArtifactRecord) :
  Forall (fun p => is_collector p = false) plugins →
  run_hooks env plugins code b = b.
Proof.
  intros H. revert b. induction H as [|p plugins Hp _ IH]; intros b; [done|].
  cbn [run_hooks]. destruct p; try done; cbn [ongenerate]; apply IH.
Qed.

Lemma hooks_before_collector (env : Env) (before rest : list Plugin)
    (code : string) (b : gmap string ArtifactRecord) :
  Forall (fun p => is_collector p = false) before →
  run_hooks env (before ++ rest) code b = run_hooks env rest code b.
Proof.
  intros H. revert b. induction H as [|p plugins Hp _ IH]; intros b; [done|].
  cbn [app run_hooks]. destruct p; try done; cbn [ongenerate]; apply IH.
Qed.

Lemma hooks_with_one_collector (env : Env) (before after : list Plugin)
    (file : string) (outDir : JsVal) (input format : string)
    (compress : bool) (code : string) (b : gmap string ArtifactRecord) :
  Forall (fun p => is_collector p = false) (before ++ after) →
  run_hooks env
            (before ++ PCollector file outDir input format compress :: after)
            code b
  = match path_resolve (process_cwd env) [outDir; VStr ".."] with
    | Ok base =>
        <[file := mkArtifact (Path.relative (process_cwd env) base file)
                             input format compress code]> b
    | Throw _ => b
    end.
Proof.
  intros [Hb Ha]%Forall_app.
  rewrite hooks_before_collector by done. cbn [run_hooks ongenerate].
  destruct (path_resolve (process_cwd env) [outDir; VStr ".."]); [|done].
  cbn [mbind Result_bind]. by apply hooks_without_collector.
Qed.

(** What the hooks of a task's pipeline do to the artifact map on one
    generated code. *)
Lemma hooks_of_config (env : Env) (self : Bili) (t : Task)
    (cfg : EngineConfig) (code : string) (b : gmap string ArtifactRecord) :
  createConfig env self t = Ok cfg →
  run_hooks env (io_plugins (inputOptions cfg)) code b
  = match path_resolve (process_cwd env) [opt self "outDir"; VStr ".."] with
    | Ok base =>
        <[output_file cfg :=
            mkArtifact (Path.relative (process_cwd env) base (output_file cfg))
                       (task_input t) (task_format t) (task_compress t)
                       code]> b
    | Throw _ => b
    end.
Proof.
  intros H. apply pipeline_shape in H as (before & after & -> & Hothers).
  cbn [run_hooks ongenerate]. by apply hooks_with_one_collector.
Qed.

Lemma resolve_parent_of_string (cwd outDir : string) :
  path_resolve cwd [VStr outDir; VStr ".."] = Ok (Path.resolve cwd [outDir; ".."]).
Proof. apply path_resolve_two. Qed.

Lemma resolve_parent_of_other (cwd : string) (outDir : JsVal) :
  Js.typeof outDir ≠ Js.TString →
  ∃ e, path_resolve cwd [outDir; VStr ".."] = Throw e.
Proof. destruct outDir; intros H; try done; by eexists. Qed.

(** X3: when the hooks of a task's pipeline run on the generated code
    and the [outDir] option is a string, the artifact map holds, under the
    task's output path, a record with the task's input, format and
    compress flag, the output path relative to the parent of [outDir] and
    the code generated last, and every other entry of the map is left as
    it was; when [outDir] is no string, the collector throws and the whole
    map is left as it was. *)
Theorem generate_records_task (env : Env) (self : Bili) (t : Task)
    (cfg : EngineConfig) (codes : list string) (code : string)
    (b : gmap string ArtifactRecord) :
  createConfig env self t = Ok cfg →
  let b' := generate env (io_plugins (inputOptions cfg)) (codes ++ [code]) b in
  (∀ outDir : string, opt self "outDir" = VStr outDir →
     (∃ record : ArtifactRecord,
        b' !! output_file cfg = Some record ∧
        art_input record = task_input t ∧
        art_format record = task_format t ∧
        art_compress record = task_compress t ∧
        art_relative record
        = Path.relative (process_cwd env)
            (Path.resolve (process_cwd env) [outDir; ".."]) (output_file cfg) ∧
        art_code record = code) ∧
     (∀ path : string, path ≠ output_file cfg → b' !! path = b !! path)) ∧
  (Js.typeof (opt self "outDir") ≠ Js.TString → b' = b).
Proof.
  intros H. cbn zeta. unfold generate.
  assert (∀ codes b,
            fold_left (fun b code =>
                         run_hooks env (io_plugins (inputOptions cfg)) code b)
                      codes b
            = fold_left (fun b code =>
                match path_resolve (process_cwd env)
                        [opt self "outDir"; VStr ".."] with
                | Ok base =>
                    <[output_file cfg :=
                        mkArtifact (Path.relative (process_cwd env) base
                                      (output_file cfg))
                                   (task_input t) (task_format t)
                                   (task_compress t) code]> b
                | Throw _ => b
                end) codes b) as ->.
  { intros l. induction l as [|c l IH]; intros b0; [done|].
    cbn [fold_left]. by rewrite IH, (hooks_of_config env self t cfg). }
  split.
  - intros outDir ->. rewrite resolve_parent_of_string.
    rewrite fold_left_app.
    change (fold_left ?f [code] ?x) with (f x code). cbv beta. split.
    + eexists. rewrite lookup_insert_eq. by repeat split.
    + intros path Hpath. rewrite lookup_insert_ne by done.
      revert b. induction codes as [|c codes IH]; intros b; [done|].
      change (fold_left ?f (c :: codes) b) with (fold_left f codes (f b c)).
      cbv beta. rewrite IH. by rewrite lookup_insert_ne.
  - intros Hother.
    destruct (resolve_parent_of_other (process_cwd env) _ Hother) as [e ->].
    generalize (codes ++ [code]). intros l.
    induction l as [|c l IH]; [done|]. by cbn [fold_left].
Qed.

Lemma generate_records_task_witness :
  let b' :=
    generate sample_env (io_plugins (inputOptions sample_config))
             (["var a"] ++ ["var b"]) ∅ in
  (∀ outDir : string,
     opt (new_Bili sample_env sample_options) "outDir" = VStr outDir →
     (∃ record : ArtifactRecord,
        b' !! output_file sample_config = Some record ∧
        art_input record = task_input sample_task ∧
        art_format record = task_format sample_task ∧
        art_compress record = task_compress sample_task ∧
        art_relative record
        = Path.relative "/proj" (Path.resolve "/proj" [outDir; ".."])
                        (output_file sample_config) ∧
        art_code record = "var b") ∧
     (∀ path : string,
        path ≠ output_file sample_config →
        b' !! path = (∅ : gmap string ArtifactRecord) !! path)) ∧
  (Js.typeof (opt (new_Bili sample_env sample_options) "outDir")
   ≠ Js.TString → b' = ∅).
Proof.
  apply (generate_records_task sample_env (new_Bili sample_env sample_options)
           sample_task sample_config ["var a"] "var b" ∅).
  vm_compute. reflexivity.
Defined.

(** ** What a build leaves in the artifact map *)

Lemma generate_lookup (env : Env) (self : Bili) (t : Task)
    (cfg : EngineConfig) (codes : list string)
    (b : gmap string ArtifactRecord) (path : string)
    (record : ArtifactRecord) :
  createConfig env self t = Ok cfg →
  generate env (io_plugins (inputOptions cfg)) codes b !! path = Some record →
  b !! path = Some record ∨ (path = output_file cfg ∧ recorded_from t record).
Proof.
  intros Hcfg. unfold generate. revert b.
  induction codes as [|code codes IH]; intros b Hlook; [by left|].
  change (fold_left ?f (code :: codes) b) with (fold_left f codes (f b code))
    in Hlook.
  cbv beta in Hlook. rewrite (hooks_of_config env self t cfg) in Hlook by done.
  destruct (IH _ Hlook) as [Hin|Hrec]; [|by right].
  destruct (path_resolve (process_cwd env) [opt self "outDir"; VStr ".."]);
    [|by left].
  destruct (decide (output_file cfg = path)) as [<-|Hne].
  - rewrite lookup_insert_eq in Hin. injection Hin as <-. by right.
  - rewrite lookup_insert_ne in Hin by done. by left.
Qed.

Lemma fmap_Ok_Forall2 {A B} (f : A → Result B) (l : list A) (l' : list B) :
  f <$> l = Ok <$> l' → Forall2 (fun x y => f x = Ok y) l l'.
Proof.
  revert l'. induction l as [|x l IH]; intros [|y l'] H; try done.
  injection H as Hx H. constructor; [done|]. by apply IH.
Qed.

Lemma settle_lookup (env : Env) (self : Bili) (watching write : bool)
    (tasks : list Task) (configs : list EngineConfig)
    (b : gmap string ArtifactRecord) (path : string)
    (record : ArtifactRecord) :
  Forall2 (fun t c => createConfig env self t = Ok c) tasks configs →
  (settle env watching write configs b).2 !! path = Some record →
  b !! path = Some record ∨
  ∃ (i : nat) (t : Task) (c : EngineConfig),
    tasks !! i = Some t ∧ configs !! i = Some c ∧
    output_file c = path ∧ recorded_from t record.
Proof.
  intros Hall. revert b.
  induction Hall as [|t c tasks configs Hc _ IH]; intros b Hlook; [by left|].
  assert (∀ codes,
            (settle env watching write configs
               (generate env (io_plugins (inputOptions c)) codes b)).2 !! path
            = Some record →
            b !! path = Some record ∨
            ∃ (i : nat) (t0 : Task) (c0 : EngineConfig),
              (t :: tasks) !! i = Some t0 ∧ (c :: configs) !! i = Some c0 ∧
              output_file c0 = path ∧ recorded_from t0 record) as Hgen.
  { intros codes Hl. destruct (IH _ Hl) as [Hin|(i & t0 & c0 & ? & ? & ? & ?)].
    - destruct (generate_lookup _ _ _ _ _ _ _ _ Hc Hin) as [?|[-> ?]];
        [by left|].
      right. by exists 0%nat, t, c.
    - right. by exists (S i), t0, c0. }
  cbn [settle] in Hlook. destruct watching; [by eapply Hgen|].
  destruct (rollup env (inputOptions c) (outputOptions c) write) as [codes|e];
    [by eapply Hgen|by left].
Qed.

Lemma ongenerate_mono (env : Env) (p : Plugin) (code : string)
    (b b' : gmap string ArtifactRecord) :
  ongenerate env p code b = Ok b' → dom b ⊆ dom b'.
Proof.
  destruct p; cbn [ongenerate]; intros Hgen;
    try (by apply Ok_inj in Hgen as <-).
  apply bind_Ok_inv in Hgen as (base & _ & Hgen).
  apply Ok_inj in Hgen as <-. set_solver.
Qed.

Lemma generate_mono (env : Env) (plugins : list Plugin)
    (codes : list string) (b : gmap string ArtifactRecord) :
  dom b ⊆ dom (generate env plugins codes b).
Proof.
  unfold generate. revert b.
  induction codes as [|code codes IH]; intros b; [done|].
  cbn [fold_left]. etrans; [|apply IH].
  generalize b. clear. induction plugins as [|p plugins IH]; intros b; [done|].
  cbn [run_hooks]. destruct (ongenerate env p code b) as [b'|e] eqn:Hgen;
    [|done].
  etrans; [by eapply ongenerate_mono|apply IH].
Qed.

Lemma settle_mono (env : Env) (watching write : bool)
    (configs : list EngineConfig) (b : gmap string ArtifactRecord) :
  dom b ⊆ dom (settle env watching write configs b).2.
Proof.
  revert b. induction configs as [|c configs IH]; intros b; [done|].
  cbn [settle]. destruct watching.
  - etrans; [apply generate_mono|apply IH].
  - destruct (rollup env (inputOptions c) (outputOptions c) write);
      [|done]. etrans; [apply generate_mono|apply IH].
Qed.

Lemma bundle_Ok_nonempty (env : Env) (self : Bili) (write : bool)
    (inputFiles : list string) :
  completion (bundle env self write) = Ok () →
  resolve_inputs env self = Ok inputFiles → inputFiles ≠ [].
Proof.
  unfold bundle.
  change (resolve_inputs env (set_pkg self _)) with (resolve_inputs env self).
  intros Hok Hin. rewrite Hin in Hok. by destruct inputFiles.
Qed.

Lemma NoDup_of_size (l : list string) :
  (length l ≤ size (list_to_set l : gset string))%nat → NoDup l.
Proof.
  intros Hsize. apply NoDup_alt. intros i j x Hi Hj.
  destruct (decide (i = j)) as [|Hij]; [done|].
  pose proof (size_list_to_set_dup l i j x Hij Hi Hj). lia.
Qed.

(** A completed build on an instance without artifacts. *)
Lemma completed_build (env : Env) (self : Bili) (write : bool) :
  bundles self = ∅ →
  completion (bundle env self write) = Ok () →
  ∃ (inputFiles : list string) (tasks : list Task)
    (configs : list EngineConfig),
    resolve_inputs env self = Ok inputFiles ∧ inputFiles ≠ [] ∧
    build_tasks inputFiles (resolve_formats self) = Ok tasks ∧
    task_config env self <$> tasks = Ok <$> configs ∧
    NoDup (output_file <$> configs) ∧
    dom (bundles (instance (bundle env self write)))
    = list_to_set (output_file <$> configs) ∧
    ∀ (path : string) (record : ArtifactRecord),
      bundles (instance (bundle env self write)) !! path = Some record →
      ∃ (i : nat) (t : Task) (c : EngineConfig),
        tasks !! i = Some t ∧ configs !! i = Some c ∧
        output_file c = path ∧ recorded_from t record.
Proof.
  intros Hfresh Hok.
  pose proof (bundle_Ok_inv env self write Hok)
    as (inputFiles & tasks & configs & Hin & Htasks & Hcfg & Hb & Hge).
  exists inputFiles, tasks, configs.
  split; [done|]. split; [by eapply bundle_Ok_nonempty|].
  split; [done|]. split; [done|].
  rewrite Hfresh in Hb.
  pose proof (settled_size_le env self (Js.truthy (opt self "watch")) write
                tasks configs Hcfg) as Hle.
  rewrite <- Hb in Hle.
  change (λ c : EngineConfig, oo_file (outputOptions c)) with output_file in Hle.
  pose proof (size_list_to_set_le (output_file <$> configs)) as Hlen.
  rewrite length_fmap in Hlen.
  assert (length configs = length tasks) as Hlc.
  { apply (f_equal length) in Hcfg. by rewrite !length_fmap in Hcfg. }
  apply build_tasks_length in Htasks as Hlt.
  assert (dom (bundles (instance (bundle env self write)))
          ⊆ list_to_set (output_file <$> configs)) as Hsub.
  { rewrite Hb. etrans; [apply settle_dom|].
    - apply fmap_Ok_Forall2 in Hcfg. clear -Hcfg.
      induction Hcfg as [|t c ? ? Hc _ IH]; constructor; [|done].
      by eapply createConfig_plugins_store_under_file.
    - rewrite dom_empty_L. set_solver. }
  split; [|split].
  - apply NoDup_of_size. rewrite length_fmap. lia.
  - apply set_subseteq_size_eq; [done|]. rewrite size_dom. lia.
  - intros path record Hlook. rewrite Hb in Hlook.
    apply fmap_Ok_Forall2 in Hcfg.
    destruct (settle_lookup _ _ _ _ _ _ _ _ _ Hcfg Hlook) as [Hold|?]; [|done].
    by rewrite lookup_empty in Hold.
Qed.

(** X4: after a build that completes on a fresh instance, the paths of
    the artifact map are exactly the output paths of the tasks'
    configurations, and these are pairwise distinct. *)
Theorem bundle_paths_are_output_paths (env : Env)
    (opts : gmap string JsVal) (write : bool) :
  let self := new_Bili env opts in
  let out := bundle env self write in
  completion out = Ok () →
  ∃ (inputFiles : list string) (tasks : list Task)
    (configs : list EngineConfig),
    resolve_inputs env self = Ok inputFiles ∧
    build_tasks inputFiles (resolve_formats self) = Ok tasks ∧
    task_config env self <$> tasks = Ok <$> configs ∧
    NoDup (output_file <$> configs) ∧
    dom (bundles (instance out)) = list_to_set (output_file <$> configs).
Proof.
  intros self out Hok.
  destruct (completed_build env self write eq_refl Hok)
    as (inputFiles & tasks & configs & ? & _ & ? & ? & ? & ? & _).
  by exists inputFiles, tasks, configs.
Qed.

Lemma bundle_paths_are_output_paths_witness :
  ∃ (inputFiles : list string) (tasks : list Task)
    (configs : list EngineConfig),
    resolve_inputs sample_env (new_Bili sample_env sample_options)
    = Ok inputFiles ∧
    build_tasks inputFiles (resolve_formats (new_Bili sample_env sample_options))
    = Ok tasks ∧
    task_config sample_env (new_Bili sample_env sample_options) <$> tasks
    = Ok <$> configs ∧
    NoDup (output_file <$> configs) ∧
    dom (bundles (instance (bundle sample_env
                              (new_Bili sample_env sample_options) true)))
    = list_to_set (output_file <$> configs).
Proof.
  apply (bundle_paths_are_output_paths sample_env sample_options true).
  vm_compute. reflexivity.
Defined.

(** X5: after a build that completes on a fresh instance, the record
    stored under the output path of each task's configuration carries
    that task's input, format and compress flag. *)
Theorem bundle_records_describe_tasks (env : Env)
    (opts : gmap string JsVal) (write : bool) (inputFiles : list string)
    (tasks : list Task) (i : nat) (t : Task) (c : EngineConfig) :
  let self := new_Bili env opts in
  let out := bundle env self write in
  completion out = Ok () →
  resolve_inputs env self = Ok inputFiles →
  build_tasks inputFiles (resolve_formats self) = Ok tasks →
  tasks !! i = Some t →
  task_config env self t = Ok c →
  ∃ record : ArtifactRecord,
    bundles (instance out) !! output_file c = Some record ∧
    art_input record = task_input t ∧
    art_format record = task_format t ∧
    art_compress record = task_compress t.
Proof.
  intros self out Hok Hin Htasks Hi Hc.
  destruct (completed_build env self write eq_refl Hok)
    as (inputFiles' & tasks' & configs & Hin' & _ & Htasks' & Hcfg & Hnodup &
        Hdom & Hrec).
  assert (inputFiles' = inputFiles) as -> by congruence.
  assert (tasks' = tasks) as -> by congruence.
  assert (configs !! i = Some c) as Hci.
  { apply (f_equal (fun l => l !! i)) in Hcfg.
    rewrite !list_lookup_fmap, Hi in Hcfg. cbn in Hcfg. rewrite Hc in Hcfg.
    destruct (configs !! i); [|done]. cbn in Hcfg. congruence. }
  assert (output_file c ∈ dom (bundles (instance out))) as Hin_dom.
  { fold out in Hdom. rewrite Hdom. apply elem_of_list_to_set.
    apply list_elem_of_lookup. exists i. by rewrite list_lookup_fmap, Hci. }
  apply elem_of_dom in Hin_dom as [record Hrecord].
  exists record. split; [done|].
  destruct (Hrec _ _ Hrecord) as (j & t' & c' & Hj & Hcj & Hfile & Hfrom).
  assert (j = i) as ->.
  { eapply (proj1 (NoDup_alt _) Hnodup j i (output_file c)).
    - by rewrite list_lookup_fmap, Hcj, <- Hfile.
    - by rewrite list_lookup_fmap, Hci. }
  assert (t' = t) as -> by congruence. apply Hfrom.
Qed.

Lemma bundle_records_describe_tasks_witness :
  ∃ record : ArtifactRecord,
    bundles (instance (bundle sample_env
                         (new_Bili sample_env sample_options) true))
    !! output_file sample_config = Some record ∧
    art_input record = task_input sample_task ∧
    art_format record = task_format sample_task ∧
    art_compress record = task_compress sample_task.
Proof.
  apply (bundle_records_describe_tasks sample_env sample_options true
           ["src/index.js"; "src/cli.js"]
           [mkTask "src/index.js" "cjs" false;
            mkTask "src/index.js" "umd" true;
            mkTask "src/index.js" "es" false;
            mkTask "src/cli.js" "cjs" false;
            mkTask "src/cli.js" "umd" true;
            mkTask "src/cli.js" "es" false]
           1%nat sample_task sample_config);
    vm_compute; reflexivity.
Defined.

(** ** Formats, modes and what a build keeps *)

Lemma fold_Throw_stays (inputs : list string) (formats : JsVal) (e : Exn) :
  fold_left
    (fun res input =>
       res ← res;
       tasks ←
         match formats with
         | VArr l => mapR (format_task input) l
         | _ => TypeError "formats.map is not a function"
         end;
       Ok (res ++ tasks))
    inputs (Throw e) = Throw e.
Proof. induction inputs; done. Qed.

Lemma build_tasks_concat_from (inputs : list string) (formats : JsVal)
    (acc tasks : list Task) :
  fold_left
    (fun res input =>
       res ← res;
       tasks ←
         match formats with
         | VArr l => mapR (format_task input) l
         | _ => TypeError "formats.map is not a function"
         end;
       Ok (res ++ tasks))
    inputs (Ok acc) = Ok tasks →
  ∃ per : list (list Task),
    Forall2 (fun input ts =>
               match formats with
               | VArr l => mapR (format_task input) l
               | _ => TypeError "formats.map is not a function"
               end = Ok ts) inputs per ∧
    tasks = acc ++ concat per.
Proof.
  revert acc. induction inputs as [|input inputs IH]; intros acc H.
  - cbn in H. apply Ok_inj in H as <-. exists []. split; [constructor|].
    cbn. by rewrite app_nil_r.
  - cbn [fold_left mbind Result_bind] in H.
    destruct (match formats with
              | VArr l => mapR (format_task input) l
              | _ => TypeError "formats.map is not a function"
              end) as [ts|e] eqn:Hts.
    + cbn [mbind Result_bind] in H.
      destruct (IH _ H) as (per & Hper & ->).
      exists (ts :: per). split; [by constructor|].
      cbn. by rewrite app_assoc.
    + cbn [mbind Result_bind] in H. by rewrite fold_Throw_stays in H.
Qed.

Lemma build_tasks_concat (inputs : list string) (formats : JsVal)
    (tasks : list Task) :
  build_tasks inputs formats = Ok tasks →
  ∃ per : list (list Task),
    Forall2 (fun input ts =>
               match formats with
               | VArr l => mapR (format_task input) l
               | _ => TypeError "formats.map is not a function"
               end = Ok ts) inputs per ∧
    tasks = concat per.
Proof. intros H. by apply build_tasks_concat_from in H. Qed.

Lemma getSuffix_Ok (format suffix : string) :
  getSuffix format = Ok suffix → format ∈ ["cjs"; "umd"; "es"].
Proof.
  unfold getSuffix.
  destruct (String.eqb_spec format "cjs") as [->|_]; [set_solver|].
  destruct (String.eqb_spec format "umd") as [->|_]; [set_solver|].
  destruct (String.eqb_spec format "es") as [->|_]; [set_solver|done].
Qed.

Lemma configs_lookup (env : Env) (self : Bili) (tasks : list Task)
    (configs : list EngineConfig) (i : nat) (t : Task) :
  task_config env self <$> tasks = Ok <$> configs →
  tasks !! i = Some t →
  ∃ c : EngineConfig, configs !! i = Some c ∧ task_config env self t = Ok c.
Proof.
  intros Hcfg Hi. apply (f_equal (fun l => l !! i)) in Hcfg.
  rewrite !list_lookup_fmap, Hi in Hcfg. cbn in Hcfg.
  destruct (configs !! i) as [c|]; [|done]. cbn in Hcfg.
  exists c. split; [done|congruence].
Qed.

(** X6: a build never completes when one of the requested formats, its
    [-min] marker removed, is not [cjs], [umd] or [es]. *)
Theorem bundle_unsupported_format (env : Env) (self : Bili) (write : bool)
    (formats : list JsVal) (format : string) :
  resolve_formats self = VArr formats →
  VStr format ∈ formats →
  Str.replace_min_suffix format ∉ ["cjs"; "umd"; "es"] →
  completion (bundle env self write) ≠ Ok ().
Proof.
  intros Hformats Hformat Hbad Hok.
  pose proof (bundle_Ok_inv env self write Hok)
    as (inputFiles & tasks & configs & Hin & Htasks & Hcfg & _).
  pose proof (bundle_Ok_nonempty env self write inputFiles Hok Hin) as Hne.
  destruct inputFiles as [|input inputFiles]; [done|].
  apply build_tasks_concat in Htasks as (per & Hper & ->).
  rewrite Hformats in Hper.
  inversion Hper as [|? ts ? per' Hts _]; subst.
  apply mapR_Ok_inv in Hts.
  apply list_elem_of_lookup in Hformat as [j Hj].
  destruct (Forall2_lookup_l _ _ _ _ _ Hts Hj) as (t & Ht & Hft).
  cbn in Hft. apply Ok_inj in Hft.
  assert ((ts ++ concat per') !! j = Some t) as Hlook
    by by apply lookup_app_l_Some.
  destruct (configs_lookup _ _ _ _ _ _ Hcfg Hlook) as (c & _ & Hc).
  unfold task_config in Hc. apply createConfig_inv in Hc
    as (? & ? & ? & ? & ? & Hname & _).
  unfold getFilename in Hname.
  apply bind_Ok_inv in Hname as (suffix & Hsuffix & _).
  apply getSuffix_Ok in Hsuffix. subst t. by cbn in Hsuffix.
Qed.

Lemma bundle_unsupported_format_witness :
  completion (bundle sample_env
                (new_Bili sample_env (<["format" := VStr "cjs,iife-min"]> no_options))
                true) ≠ Ok ().
Proof.
  apply (bundle_unsupported_format sample_env _ true
           [VStr "cjs"; VStr "iife-min"] "iife-min").
  - vm_compute. reflexivity.
  - apply list_elem_of_In. right. left. reflexivity.
  - intros H. apply list_elem_of_In in H. vm_compute in H.
    repeat destruct H as [H|H]; try discriminate H. exact H.
Defined.

Lemma settle_watch_any_write (env : Env) (write write' : bool)
    (configs : list EngineConfig) (b : gmap string ArtifactRecord) :
  settle env true write configs b = settle env true write' configs b.
Proof.
  revert b. induction configs as [|c configs IH]; intros b; [done|].
  cbn [settle]. apply IH.
Qed.

(** X7: without the [watch] option every engine call of a build is a
    one-shot call carrying the caller's [write] flag; with it every call
    starts a watch session and the [write] flag changes nothing. *)
Theorem bundle_engine_call_modes (env : Env) (self : Bili) (write : bool) :
  (Js.truthy (opt self "watch") = false →
   Forall (fun call => ∃ i o, call = CallRollup i o write)
          (engine_calls (bundle env self write))) ∧
  (Js.truthy (opt self "watch") = true →
   Forall (fun call => ∃ i o, call = CallWatch i o)
          (engine_calls (bundle env self write)) ∧
   bundle env self true = bundle env self false).
Proof.
  assert (∀ watching w (P : EngineCall → Prop),
            (∀ c, P (engine_call watching w c)) →
            Forall P (engine_calls (bundle env self w)) ∨
            Js.truthy (opt self "watch") ≠ watching) as Hcalls.
  { intros watching w P HP.
    destruct (decide (Js.truthy (opt self "watch") = watching)) as [Hw|];
      [left|by right].
    unfold bundle.
    change (opt (set_pkg self _) "watch") with (opt self "watch").
    rewrite Hw.
    repeat (match goal with
            | |- context [match ?x with _ => _ end] => destruct x
            end; cbn [engine_calls failed]; try by constructor);
      apply Forall_fmap, Forall_forall; intros; apply HP. }
  split; intros Hw.
  - destruct (Hcalls false write (fun call => ∃ i o, call = CallRollup i o write))
      as [?|?]; [intros c; by eexists _, _|done|congruence].
  - split.
    + destruct (Hcalls true write (fun call => ∃ i o, call = CallWatch i o))
        as [?|?]; [intros c; by eexists _, _|done|congruence].
    + unfold bundle.
      change (opt (set_pkg self _) "watch") with (opt self "watch").
      rewrite Hw.
      destruct (resolve_inputs env _); [|done].
      destruct (length _ =? 0)%nat; [done|].
      destruct (build_tasks _ _); [|done]. cbn zeta.
      destruct (first_failure _); [done|].
      by rewrite (settle_watch_any_write env true false).
Qed.

Lemma bundle_engine_call_modes_witness :
  Forall (fun call => ∃ i o, call = CallRollup i o false)
         (engine_calls (bundle sample_env
                          (new_Bili sample_env sample_options) false)) ∧
  bundle sample_env (new_Bili sample_env (<["watch" := VBool true]> no_options))
         true
  = bundle sample_env (new_Bili sample_env (<["watch" := VBool true]> no_options))
           false.
Proof.
  split.
  - apply (proj1 (bundle_engine_call_modes sample_env
                    (new_Bili sample_env sample_options) false)).
    vm_compute. reflexivity.
  - apply (proj2 (bundle_engine_call_modes sample_env
                    (new_Bili sample_env (<["watch" := VBool true]> no_options))
                    true)).
    vm_compute. reflexivity.
Defined.

(** X8: a build leaves the options of the instance as they were and
    removes no path from its artifact map. *)
Theorem bundle_keeps_options_and_paths (env : Env) (self : Bili)
    (write : bool) :
  options (instance (bundle env self write)) = options self ∧
  dom (bundles self) ⊆ dom (bundles (instance (bundle env self write))).
Proof.
  unfold bundle.
  destruct (resolve_inputs env _); [|done].
  destruct (length _ =? 0)%nat; [done|].
  destruct (build_tasks _ _); [|done]. cbn zeta.
  destruct (first_failure _); [done|].
  pose proof (settle_mono env (Js.truthy (opt (set_pkg self
                (readPkg env (opt self "cwd"))) "watch")) write
                (successes (createConfig env (set_pkg self
                   (readPkg env (opt self "cwd"))) <$> a0))
                (bundles self)) as Hmono.
  change (bundles (set_pkg self _)) with (bundles self).
  destruct (settle _ _ _ _ _) as [[[]|e] b]; cbn in *; done.
Qed.

Lemma settle_watch_silent (env : Env) (write : bool)
    (configs : list EngineConfig) (b : gmap string ArtifactRecord) :
  Forall (fun c => watch env (inputOptions c) (outputOptions c) = []) configs →
  settle env true write configs b = (Ok (), b).
Proof.
  intros H. induction H as [|c configs Hc _ IH]; [done|].
  cbn [settle]. by rewrite Hc.
Qed.

(** X9: the deferred count check also runs in watch mode: on a fresh
    instance with at least one task, when every configuration is built and
    no watch session has generated code by then, the build starts one
    watch session per task and then throws the [BiliError] about files
    emitted to the same path. *)
Theorem bundle_watch_count_check (env : Env) (opts : gmap string JsVal)
    (write : bool) (inputFiles : list string) (tasks : list Task) :
  let self := new_Bili env opts in
  let out := bundle env self write in
  Js.truthy (opt self "watch") = true →
  resolve_inputs env self = Ok inputFiles →
  build_tasks inputFiles (resolve_formats self) = Ok tasks →
  tasks ≠ [] →
  Forall (fun t => ∃ c : EngineConfig,
            task_config env self t = Ok c ∧
            watch env (inputOptions c) (outputOptions c) = []) tasks →
  ∃ filename : string,
    opt self "filename" = VStr filename ∧
    completion out
    = Throw (BiliError (collision_message env filename (length inputFiles))) ∧
    length (engine_calls out) = length tasks ∧
    Forall (fun call => ∃ i o, call = CallWatch i o) (engine_calls out).
Proof.
  intros self out Hwatch Hin Htasks Hne Hall.
  assert (∃ configs, task_config env self <$> tasks = Ok <$> configs ∧
            Forall (fun c => watch env (inputOptions c) (outputOptions c) = [])
                   configs) as (configs & Hcfg & Hsilent).
  { clear -Hall. induction Hall as [|t tasks (c & Hc & Hw) _
                                      (configs & IH1 & IH2)].
    - by exists [].
    - exists (c :: configs). split; [|by constructor].
      rewrite !fmap_cons. by rewrite Hc, IH1. }
  assert (∃ filename, opt self "filename" = VStr filename) as [filename Hfn].
  { destruct tasks as [|t tasks]; [done|].
    inversion Hall as [|? ? (c & Hc & _) _]; subst.
    unfold task_config in Hc. apply createConfig_inv in Hc
      as (? & ? & ? & ? & ? & Hname & _).
    unfold getFilename in Hname.
    apply bind_Ok_inv in Hname as (suffix & _ & Hname).
    apply bind_Ok_inv in Hname as (pattern & Hpattern & _).
    change (opt (set_pkg self _) "filename") with (opt self "filename")
      in Hpattern.
    destruct (opt self "filename") as [| | | |fn| |]; try done. by exists fn. }
  exists filename. split; [done|].
  assert (0 < length tasks)%nat as Hpos by (destruct tasks; [done|cbn; lia]).
  apply build_tasks_length in Htasks as Hlen.
  unfold out, bundle.
  change (resolve_inputs env (set_pkg self _)) with (resolve_inputs env self).
  change (resolve_formats (set_pkg self _)) with (resolve_formats self).
  change (opt (set_pkg self _) "watch") with (opt self "watch").
  change (bundles (set_pkg self _)) with (bundles self).
  change (createConfig env (set_pkg self _)) with (task_config env self).
  rewrite Hin, Htasks, Hwatch.
  destruct inputFiles as [|input inputFiles]; [cbn in Hlen; lia|].
  cbn [length Nat.eqb]. cbn zeta. rewrite Hcfg.
  assert (first_failure (Ok <$> configs) = None) as ->
    by (clear; induction configs; done).
  assert (successes (Ok <$> configs) = configs) as ->.
  { clear. unfold successes. induction configs as [|c configs IH]; [done|].
    cbn. by rewrite IH. }
  rewrite settle_watch_silent by done.
  cbn [completion instance engine_calls]. unfold check_bundles.
  cbn [bundles set_bundles].
  change (opt (set_bundles (set_pkg self _) _) "filename")
    with (opt self "filename").
  change (bundles self) with (∅ : gmap string ArtifactRecord).
  rewrite map_size_empty.
  replace (0 <? formats_length (resolve_formats self) *
                length (input :: inputFiles))%nat with true
    by (symmetry; apply Nat.ltb_lt; lia).
  rewrite Hfn. cbn [expect_str mbind Result_bind].
  split; [done|]. split.
  - rewrite length_fmap. apply (f_equal length) in Hcfg.
    by rewrite !length_fmap in Hcfg.
  - apply Forall_fmap, Forall_forall. intros c _. by eexists _, _.
Qed.

Lemma bundle_watch_count_check_witness :
  let self := new_Bili sample_env (<["watch" := VBool true]> no_options) in
  let out := bundle sample_env self true in
  ∃ filename : string,
    opt self "filename" = VStr filename ∧
    completion out
    = Throw (BiliError (collision_message sample_env filename
                          (length ["src/index.js"; "src/cli.js"]))) ∧
    length (engine_calls out)
    = length [mkTask "src/index.js" "cjs" false;
              mkTask "src/cli.js" "cjs" false] ∧
    Forall (fun call => ∃ i o, call = CallWatch i o) (engine_calls out).
Proof.
  apply (bundle_watch_count_check sample_env
           (<["watch" := VBool true]> no_options) true
           ["src/index.js"; "src/cli.js"]
           [mkTask "src/index.js" "cjs" false; mkTask "src/cli.js" "cjs" false]).
  - vm_compute. reflexivity.
  - vm_compute. reflexivity.
  - vm_compute. reflexivity.
  - discriminate.
  - repeat constructor; eexists; split; vm_compute; reflexivity.
Defined.

(** X10: when neither [format] nor [formats] is given, or both hold a
    falsy value that is not a string, a build has one task per input, of
    format [cjs] and not compressed; an empty string under [formats]
    does not count as absent but as the single format [""]. *)
Theorem build_tasks_default_format (self : Bili) (inputFiles : list string) :
  Js.truthy (opt self "format") = false →
  Js.truthy (opt self "formats") = false →
  ((∀ s, opt self "formats" ≠ VStr s) →
   build_tasks inputFiles (resolve_formats self)
   = Ok ((fun input => mkTask input "cjs" false) <$> inputFiles)) ∧
  (opt self "formats" = VStr "" → resolve_formats self = VArr [VStr ""]).
Proof.
  intros Hformat Hformats.
  assert (build_tasks inputFiles FORMATS
          = Ok ((fun input => mkTask input "cjs" false) <$> inputFiles))
    as Hdefault.
  { change FORMATS with (VArr (VStr <$> ["cjs"])).
    rewrite build_tasks_strings. apply (f_equal Ok).
    induction inputFiles as [|input inputFiles IH]; [done|].
    rewrite bind_cons, IH. reflexivity. }
  assert (Js.or (opt self "format") (opt self "formats") = opt self "formats")
    as Hplural by (unfold Js.or; by rewrite Hformat).
  unfold resolve_formats, getArrayOption.
  change ("format" +:+ "s") with "formats". cbv zeta. rewrite Hplural. split.
  - intros Hnot.
    destruct (opt self "formats") as [| |b|n|s| |]; try done.
    + cbn in Hformats. by subst b.
    + unfold Js.or. by rewrite Hformats.
    + by destruct (Hnot s).
  - intros ->. reflexivity.
Qed.

Lemma build_tasks_default_format_witness :
  build_tasks ["src/index.js"; "src/cli.js"]
              (resolve_formats (new_Bili sample_env no_options))
  = Ok ((fun input => mkTask input "cjs" false) <$> ["src/index.js"; "src/cli.js"]) ∧
  resolve_formats (new_Bili sample_env empty_formats_options)
  = VArr [VStr ""].
Proof.
  split.
  - apply (proj1 (build_tasks_default_format (new_Bili sample_env no_options)
                    ["src/index.js"; "src/cli.js"]
                    ltac:(vm_compute; reflexivity)
                    ltac:(vm_compute; reflexivity))).
    intros s Hs. vm_compute in Hs. discriminate.
  - apply (proj2 (build_tasks_default_format
                    (new_Bili sample_env empty_formats_options)
                    [] ltac:(vm_compute; reflexivity)
                    ltac:(vm_compute; reflexivity))).
    vm_compute. reflexivity.
Defined.

Lemma getFilename_named (input input' format : string) (filename : JsVal)
    (compress : bool) (name : JsVal) :
  Js.truthy name = true →
  getFilename input format filename compress name
  = getFilename input' format filename compress name.
Proof. intros H. unfold getFilename, Js.or. by rewrite H. Qed.

(** X11: with a truthy [name] option every input gets the same output
    file name, so a build on a fresh instance with two or more input
    files and at least one format never completes. *)
Theorem bundle_name_option_collides (env : Env) (opts : gmap string JsVal)
    (write : bool) (input1 input2 : string) (inputFiles : list string)
    (format : JsVal) (formats : list JsVal) :
  let self := new_Bili env opts in
  Js.truthy (opt self "name") = true →
  resolve_inputs env self = Ok (input1 :: input2 :: inputFiles) →
  resolve_formats self = VArr (format :: formats) →
  (∀ compress : bool,
     getFilename input1 "cjs" (opt self "filename") compress (opt self "name")
     = getFilename input2 "cjs" (opt self "filename") compress (opt self "name")) ∧
  completion (bundle env self write) ≠ Ok ().
Proof.
  intros self Hname Hin Hformats. split; [intros; by apply getFilename_named|].
  intros Hok.
  destruct (completed_build env self write eq_refl Hok)
    as (inputFiles' & tasks & configs & Hin' & _ & Htasks & Hcfg & Hnodup & _).
  assert (inputFiles' = input1 :: input2 :: inputFiles) as -> by congruence.
  apply build_tasks_concat in Htasks as (per & Hper & ->).
  rewrite Hformats in Hper.
  inversion Hper as [|? ts1 ? per1 Hts1 Hper1]; subst.
  inversion Hper1 as [|? ts2 ? per2 Hts2 _]; subst.
  cbn [mapR] in Hts1, Hts2.
  apply bind_Ok_inv in Hts1 as (t1 & Ht1 & Hts1).
  apply bind_Ok_inv in Hts1 as (ts1' & _ & Hts1). apply Ok_inj in Hts1 as <-.
  apply bind_Ok_inv in Hts2 as (t2 & Ht2 & Hts2).
  apply bind_Ok_inv in Hts2 as (ts2' & _ & Hts2). apply Ok_inj in Hts2 as <-.
  destruct format as [| | | |f| |]; try done.
  cbn in Ht1, Ht2. apply Ok_inj in Ht1, Ht2. subst t1 t2.
  set (t1 := mkTask input1 _ _) in *. set (t2 := mkTask input2 _ _) in *.
  assert (concat ((t1 :: ts1') :: (t2 :: ts2') :: per2) !! 0%nat = Some t1)
    as H1 by done.
  assert (concat ((t1 :: ts1') :: (t2 :: ts2') :: per2) !! (S (length ts1'))
          = Some t2) as H2.
  { cbn [concat]. rewrite lookup_app_r; cbn [length]; [|lia].
    by replace (S (length ts1') - S (length ts1'))%nat with 0%nat by lia. }
  destruct (configs_lookup _ _ _ _ _ _ Hcfg H1) as (c1 & Hc1 & Hk1).
  destruct (configs_lookup _ _ _ _ _ _ Hcfg H2) as (c2 & Hc2 & Hk2).
  unfold task_config in Hk1, Hk2.
  apply createConfig_inv in Hk1
    as (n1 & f1 & ? & ? & ? & Hn1 & Hf1 & _ & _ & _ & _ & Ho1 & _).
  apply createConfig_inv in Hk2
    as (n2 & f2 & ? & ? & ? & Hn2 & Hf2 & _ & _ & _ & _ & Ho2 & _).
  rewrite (getFilename_named _ input2) in Hn1 by done.
  cbn [task_input task_format task_compress t1 t2] in Hn1, Hn2.
  assert (n1 = n2) as -> by congruence.
  assert (f1 = f2) as -> by congruence.
  assert (0%nat = S (length ts1')); [|done].
  apply (proj1 (NoDup_alt _) Hnodup _ _ f2).
  - rewrite list_lookup_fmap, Hc1, <- Ho1. reflexivity.
  - rewrite list_lookup_fmap, Hc2, <- Ho2. reflexivity.
Qed.

Lemma bundle_name_option_collides_witness :
  (∀ compress : bool,
     getFilename "src/index.js" "cjs"
       (opt (new_Bili sample_env clashing_options) "filename") compress
       (opt (new_Bili sample_env clashing_options) "name")
     = getFilename "src/cli.js" "cjs"
         (opt (new_Bili sample_env clashing_options) "filename") compress
         (opt (new_Bili sample_env clashing_options) "name")) ∧
  completion (bundle sample_env (new_Bili sample_env clashing_options) true)
  ≠ Ok ().
Proof.
  apply (bundle_name_option_collides sample_env clashing_options true
           "src/index.js" "src/cli.js" [] (VStr "cjs") []);
    vm_compute; reflexivity.
Defined.

(** ** Objects read by key *)

Lemma js_field_set_field (k : string) (v : JsVal)
    (fields : list (string * JsVal)) (key : string) :
  js_field (Js.set_field k v fields) key
  = if String.eqb k key then Some v else js_field fields key.
Proof.
  induction fields as [|[k' v'] rest IH]; cbn [Js.set_field js_field]; [done|].
  destruct (String.eqb k k') eqn:Hkk'; cbn [js_field].
  - apply String.eqb_eq in Hkk' as <-. by destruct (String.eqb k key).
  - rewrite IH. destruct (String.eqb k key) eqn:Hk; [|done].
    apply String.eqb_eq in Hk as <-.
    by rewrite String.eqb_sym, Hkk'.
Qed.

Lemma js_field_app (l1 l2 : list (string * JsVal)) (key : string) :
  js_field (l1 ++ l2) key
  = match js_field l1 key with Some v => Some v | None => js_field l2 key end.
Proof.
  induction l1 as [|[k v] l1 IH]; [done|]. cbn [app js_field].
  by destruct (String.eqb k key).
Qed.

Lemma js_field_assign_rev (base over : list (string * JsVal)) (key : string) :
  js_field (Js.assign base over) key
  = match js_field (reverse over) key with
    | Some v => Some v
    | None => js_field base key
    end.
Proof.
  unfold Js.assign. revert base.
  induction over as [|[k v] over IH]; intros base; [done|].
  cbn [fold_left fst snd]. rewrite IH, reverse_cons, js_field_app, js_field_set_field.
  destruct (js_field (reverse over) key); [done|]. cbn [js_field].
  by destruct (String.eqb k key).
Qed.

Lemma js_field_list_to_map (l : list (string * JsVal)) (key : string) :
  js_field l key = (list_to_map l : gmap string JsVal) !! key.
Proof.
  induction l as [|[k v] l IH]; [done|]. cbn [js_field list_to_map foldr].
  destruct (String.eqb k key) eqn:Hk.
  - apply String.eqb_eq in Hk as ->. by rewrite lookup_insert_eq.
  - apply String.eqb_neq in Hk. by rewrite lookup_insert_ne.
Qed.

Lemma js_field_rev (l : list (string * JsVal)) (key : string) :
  NoDup l.*1 → js_field (reverse l) key = js_field l key.
Proof.
  intros Hl. rewrite !js_field_list_to_map.
  f_equal. apply list_to_map_proper; [|by rewrite reverse_Permutation].
  by rewrite fmap_reverse, reverse_Permutation.
Qed.

(** [{...base, ...over}] read by key: the value of [over] where it has
    the key, that of [base] elsewhere. *)
Lemma js_field_assign (base over : list (string * JsVal)) (key : string) :
  NoDup over.*1 →
  js_field (Js.assign base over) key
  = match js_field over key with
    | Some v => Some v
    | None => js_field base key
    end.
Proof. intros H. by rewrite js_field_assign_rev, js_field_rev. Qed.

(** ** User plugins *)

(** X12: plugins given as objects are put into the pipeline as they are,
    in their order, and no module is loaded for them, whatever the
    environment can load. *)
Theorem loadUserPlugins_objects_as_given (env : Env) (self : Bili)
    (filename : string) (plugins : list JsVal) :
  opt self "plugin" = VArr plugins →
  Forall (fun p => Js.typeof p = Js.TObject ∧ Js.truthy p = true) plugins →
  loadUserPlugins env self filename = Ok ((Some ∘ PUserObject) <$> plugins).
Proof.
  intros Hopt Hobjs. unfold loadUserPlugins, getArrayOption.
  unfold Js.or at 2. rewrite Hopt. cbn [Js.truthy Js.or]. clear Hopt.
  induction Hobjs as [|p plugins [Htype Htruthy] _ IH]; [done|].
  cbn [mapR]. rewrite IH. unfold loadUserPlugin. by rewrite Htype, Htruthy.
Qed.

Lemma loadUserPlugins_objects_as_given_witness :
  loadUserPlugins bare_env (new_Bili bare_env plugin_object_options)
                  "index.cjs.js"
  = Ok ((Some ∘ PUserObject) <$> [VObj [("name", VStr "my-plugin")]]).
Proof.
  apply (loadUserPlugins_objects_as_given bare_env
           (new_Bili bare_env plugin_object_options) "index.cjs.js"
           [VObj [("name", VStr "my-plugin")]]).
  - vm_compute. reflexivity.
  - repeat constructor.
Defined.

(** X13: the [postcss] plugin is created with the user's options for it
    and [extract: true] unless those options set [extract]. *)
Theorem loadUserPlugin_postcss_options (env : Env) (self : Bili)
    (filename : string) :
  let user := Js.spread_fields (opt self "postcss") in
  NoDup user.*1 →
  ∃ given : list (string * JsVal),
    (∀ key, js_field given key
            = match js_field user key with
              | Some v => Some v
              | None => if String.eqb key "extract" then Some (VBool true)
                        else None
              end) ∧
    (localRequire env "rollup-plugin-postcss" = None →
     call_plugin env "rollup-plugin-postcss" (VObj given) = None →
     loadUserPlugin env self filename (VStr "postcss")
     = Ok (Some (PLoaded "rollup-plugin-postcss" (VObj given)))).
Proof.
  intros user Huser.
  exists (Js.assign [("extract", VBool true)] user). split.
  - intros key. rewrite js_field_assign by done. cbn [js_field].
    by rewrite String.eqb_sym.
  - intros Hload Hcall. unfold loadUserPlugin.
    cbn [Js.typeof Js.to_string Js.is_str String.eqb Ascii.eqb Bool.eqb].
    cbn [mbind Result_bind].
    change ("rollup-plugin-" +:+ "postcss") with "rollup-plugin-postcss".
    fold user. by rewrite Hload, Hcall.
Qed.

Lemma loadUserPlugin_postcss_options_witness :
  ∃ given : list (string * JsVal),
    (∀ key, js_field given key
            = match js_field [("extract", VBool false); ("modules", VBool true)]
                             key with
              | Some v => Some v
              | None => if String.eqb key "extract" then Some (VBool true)
                        else None
              end) ∧
    (localRequire sample_env "rollup-plugin-postcss" = None →
     call_plugin sample_env "rollup-plugin-postcss" (VObj given) = None →
     loadUserPlugin sample_env (new_Bili sample_env style_options)
                    "index.cjs.js" (VStr "postcss")
     = Ok (Some (PLoaded "rollup-plugin-postcss" (VObj given)))).
Proof.
  apply (loadUserPlugin_postcss_options sample_env
           (new_Bili sample_env style_options) "index.cjs.js").
  vm_compute. repeat constructor; set_solver.
Defined.

(** X14: the [vue] plugin is created with the user's options for it and,
    unless those options set [css], with [css] the path of the output
    file name, its extension replaced by [.css], under the output
    directory. *)
Theorem loadUserPlugin_vue_options (env : Env) (self : Bili)
    (filename outDir : string) :
  let user := Js.spread_fields (opt self "vue") in
  NoDup user.*1 →
  opt self "outDir" = VStr outDir →
  ∃ given : list (string * JsVal),
    (∀ key, js_field given key
            = match js_field user key with
              | Some v => Some v
              | None =>
                  if String.eqb key "css"
                  then Some (VStr (Path.resolve (process_cwd env)
                                     [outDir;
                                      Str.replace_last_ext filename ".css"]))
                  else None
              end) ∧
    (localRequire env "rollup-plugin-vue" = None →
     call_plugin env "rollup-plugin-vue" (VObj given) = None →
     loadUserPlugin env self filename (VStr "vue")
     = Ok (Some (PLoaded "rollup-plugin-vue" (VObj given)))).
Proof.
  intros user Huser HoutDir.
  exists (Js.assign
            [("css", VStr (Path.resolve (process_cwd env)
                             [outDir; Str.replace_last_ext filename ".css"]))]
            user). split.
  - intros key. rewrite js_field_assign by done. cbn [js_field].
    by rewrite String.eqb_sym.
  - intros Hload Hcall. unfold loadUserPlugin.
    cbn [Js.typeof Js.to_string Js.is_str String.eqb Ascii.eqb Bool.eqb].
    rewrite HoutDir, path_resolve_two. cbn [mbind Result_bind].
    change ("rollup-plugin-" +:+ "vue") with "rollup-plugin-vue".
    fold user. by rewrite Hload, Hcall.
Qed.

Lemma loadUserPlugin_vue_options_witness :
  ∃ given : list (string * JsVal),
    (∀ key, js_field given key
            = match js_field [("css", VBool false)] key with
              | Some v => Some v
              | None =>
                  if String.eqb key "css"
                  then Some (VStr (Path.resolve "/proj"
                                     ["dist";
                                      Str.replace_last_ext "index.cjs.js" ".css"]))
                  else None
              end) ∧
    (localRequire sample_env "rollup-plugin-vue" = None →
     call_plugin sample_env "rollup-plugin-vue" (VObj given) = None →
     loadUserPlugin sample_env (new_Bili sample_env style_options)
                    "index.cjs.js" (VStr "vue")
     = Ok (Some (PLoaded "rollup-plugin-vue" (VObj given)))).
Proof.
  apply (loadUserPlugin_vue_options sample_env
           (new_Bili sample_env style_options) "index.cjs.js" "dist").
  - vm_compute. repeat constructor; set_solver.
  - vm_compute. reflexivity.
Defined.

(** ** Transpiler options *)

(** X15: for [buble] the options are the user's, except [transforms]:
    that is always an object in which [dangerousForOf] and
    [dangerousTaggedTemplateString] are [true] unless the user's
    [transforms] sets them, and which keeps every transform of the
    user. *)
Theorem getJsOptions_buble (tr : Transpile) (jsx jsOptions : JsVal) :
  let user := Js.spread_fields jsOptions in
  let userTransforms :=
    Js.spread_fields (Js.and jsOptions (js_prop jsOptions "transforms")) in
  NoDup user.*1 →
  NoDup userTransforms.*1 →
  ∃ transforms : list (string * JsVal),
    (∀ key, js_field (getJsOptions tr (VStr "buble") jsx jsOptions) key
            = if String.eqb key "transforms" then Some (VObj transforms)
              else js_field user key) ∧
    (∀ key, js_field transforms key
            = match js_field userTransforms key with
              | Some v => Some v
              | None =>
                  if String.eqb key "dangerousForOf" ||
                     String.eqb key "dangerousTaggedTemplateString"
                  then Some (VBool true) else None
              end).
Proof.
  intros user userTransforms Huser Htransforms.
  eexists. split.
  - intros key. unfold getJsOptions.
    cbn [Js.is_str String.eqb Ascii.eqb Bool.eqb andb].
    rewrite js_field_set_field, js_field_assign by done. fold user.
    rewrite String.eqb_sym. cbn [js_field].
    destruct (String.eqb key "transforms"); [reflexivity|].
    by destruct (js_field user key).
  - intros key. fold userTransforms. rewrite js_field_assign by done.
    cbn [js_field]. rewrite !(String.eqb_sym _ key).
    destruct (js_field userTransforms key); [done|].
    by destruct (String.eqb key "dangerousForOf"),
                (String.eqb key "dangerousTaggedTemplateString").
Qed.

Lemma getJsOptions_buble_witness :
  ∃ transforms : list (string * JsVal),
    (∀ key, js_field (getJsOptions sample_transpile (VStr "buble") VUndefined
                                   buble_options) key
            = if String.eqb key "transforms" then Some (VObj transforms)
              else js_field (Js.spread_fields buble_options) key) ∧
    (∀ key, js_field transforms key
            = match js_field [("dangerousForOf", VBool false)] key with
              | Some v => Some v
              | None =>
                  if String.eqb key "dangerousForOf" ||
                     String.eqb key "dangerousTaggedTemplateString"
                  then Some (VBool true) else None
              end).
Proof.
  apply (getJsOptions_buble sample_transpile VUndefined buble_options);
    vm_compute; repeat constructor; set_solver.
Defined.

(** X16: for [babel] an option of the user wins over the one of the
    babel configuration, and [babelrc] is on outside the test suite
    unless one of the two sets it; for a transpiler other than [babel]
    and [buble] the options are empty, whatever the user gives. *)
Theorem getJsOptions_babel (tr : Transpile) (jsx jsOptions : JsVal) :
  let user := Js.spread_fields jsOptions in
  NoDup user.*1 →
  NoDup (getBabelConfig tr jsx).*1 →
  (∀ key, js_field (getJsOptions tr (VStr "babel") jsx jsOptions) key
          = match js_field user key with
            | Some v => Some v
            | None =>
                match js_field (getBabelConfig tr jsx) key with
                | Some v => Some v
                | None =>
                    if String.eqb key "babelrc"
                    then Some (VBool (negb (Js.truthy (BILI_TEST tr))))
                    else None
                end
            end) ∧
  (∀ name, Js.is_str name "babel" = false → Js.is_str name "buble" = false →
           getJsOptions tr name jsx jsOptions = []).
Proof.
  intros user Huser Hconfig. split.
  - intros key. unfold getJsOptions.
    cbn [Js.is_str String.eqb Ascii.eqb Bool.eqb andb].
    rewrite !js_field_assign by done. fold user. cbn [js_field].
    by rewrite String.eqb_sym.
  - intros name Hbabel Hbuble. unfold getJsOptions. by rewrite Hbabel, Hbuble.
Qed.

Lemma getJsOptions_babel_witness :
  (∀ key, js_field (getJsOptions sample_transpile (VStr "babel") VUndefined
                                 buble_options) key
          = match js_field (Js.spread_fields buble_options) key with
            | Some v => Some v
            | None =>
                match js_field [("presets", VArr [VStr "env"])] key with
                | Some v => Some v
                | None =>
                    if String.eqb key "babelrc" then Some (VBool true)
                    else None
                end
            end) ∧
  (∀ name, Js.is_str name "babel" = false → Js.is_str name "buble" = false →
           getJsOptions sample_transpile name VUndefined buble_options = []).
Proof.
  apply (getJsOptions_babel sample_transpile VUndefined buble_options);
    vm_compute; repeat constructor; set_solver.
Defined.

Lemma successes_none {A B} (f : A → Result B) (l : list A) :
  (∀ a b, f a ≠ Ok b) → successes (f <$> l) = [].
Proof.
  intros Hf. induction l as [|a l IH]; [done|].
  cbn [fmap list_fmap successes omap]. unfold successes in IH.
  destruct (f a) as [b|e] eqn:Hfa; [by destruct (Hf a b)|].
  cbn. exact IH.
Qed.

(** X17: when the module of a transpiler other than [babel] and [buble]
    is not installed under [node_modules] of the working directory,
    loading it throws the [BiliError] that names the module; no task gets
    a configuration, and a build starts no engine call and leaves the
    artifact map as it was. *)
Theorem bundle_missing_transpiler (env : Env) (self : Bili) (write : bool)
    (name : string) (err : Exn) :
  let moduleName := "rollup-plugin-" +:+ name in
  opt self "js" = VStr name →
  name ≠ "" → name ≠ "babel" → name ≠ "buble" →
  localRequire env moduleName = Some err →
  exn_code err = Some "MODULE_NOT_FOUND" →
  Str.includes (exn_message err) moduleName = true →
  getJsPlugin env (Js.or (opt self "js") (VStr "buble"))
  = Throw (BiliError (plugin_not_found_message (chalk_dim env) moduleName)) ∧
  (∀ t cfg, createConfig env self t ≠ Ok cfg) ∧
  engine_calls (bundle env self write) = [] ∧
  bundles (instance (bundle env self write)) = bundles self.
Proof.
  intros moduleName Hjs Hname Hbabel Hbuble Hload Hcode Hmsg.
  assert (∀ p, getJsPlugin env (Js.or (opt (set_pkg self p) "js") (VStr "buble"))
               = Throw (BiliError (plugin_not_found_message (chalk_dim env)
                                     moduleName))) as Hplugin.
  { intros p. change (opt (set_pkg self p) "js") with (opt self "js").
    rewrite Hjs. unfold Js.or, Js.truthy.
    apply String.eqb_neq in Hname, Hbabel, Hbuble.
    rewrite Hname. cbn [negb]. unfold getJsPlugin, Js.is_str.
    rewrite Hbabel, Hbuble. cbn [orb Js.to_string]. fold moduleName. rewrite Hload.
    unfold handleLoadPluginError.
    by rewrite Hmsg, bool_decide_eq_true_2. }
  assert (∀ p t cfg, createConfig env (set_pkg self p) t ≠ Ok cfg) as Hnone.
  { intros p t cfg H. unfold createConfig in H.
    apply bind_Ok_inv in H as (outFilename & _ & H).
    apply bind_Ok_inv in H as (file & _ & H).
    apply bind_Ok_inv in H as (jsPlugin & HjsPlugin & _).
    by rewrite Hplugin in HjsPlugin. }
  split; [apply (Hplugin (pkg self))|].
  split; [apply (Hnone (pkg self))|].
  unfold bundle.
  destruct (resolve_inputs env _); [|done].
  destruct (length _ =? 0)%nat; [done|].
  destruct (build_tasks _ _) as [tasks|]; [|done]. cbn zeta.
  rewrite (successes_none _ tasks (Hnone _)).
  by destruct (first_failure _).
Qed.

Lemma bundle_missing_transpiler_witness :
  getJsPlugin bare_env
    (Js.or (opt (new_Bili bare_env typescript_options) "js") (VStr "buble"))
  = Throw (BiliError (plugin_not_found_message (chalk_dim bare_env)
                        ("rollup-plugin-" +:+ "typescript"))) ∧
  (∀ t cfg,
     createConfig bare_env (new_Bili bare_env typescript_options) t ≠ Ok cfg) ∧
  engine_calls (bundle bare_env (new_Bili bare_env typescript_options) true)
  = [] ∧
  bundles (instance (bundle bare_env (new_Bili bare_env typescript_options)
                            true))
  = bundles (new_Bili bare_env typescript_options).
Proof.
  apply (bundle_missing_transpiler bare_env
           (new_Bili bare_env typescript_options) true "typescript"
           (JsError "Error" (Some "MODULE_NOT_FOUND")
              ("Cannot find module '" +:+
               "/proj/node_modules/rollup-plugin-typescript" +:+ "'")));
    try (vm_compute; reflexivity); discriminate.
Defined.

(** ** The name of a bundle *)

(** X18: only a [umd] configuration gets a name, every other format
    gets [false]; the name is the [moduleName] option when that is
    truthy, and without a truthy [moduleName] in the options and in the
    package it is the camel-cased name of the package. *)
Theorem createConfig_umd_name (env : Env) (self : Bili) (t : Task)
    (cfg : EngineConfig) :
  createConfig env self t = Ok cfg →
  (task_format t ≠ "umd" → oo_name (outputOptions cfg) = VBool false) ∧
  (task_format t = "umd" →
   (Js.truthy (opt self "moduleName") = true →
    oo_name (outputOptions cfg) = opt self "moduleName") ∧
   (Js.truthy (opt self "moduleName") = false →
    Js.truthy (Js.get (pkg self) "moduleName") = false →
    ∀ name, Js.get (pkg self) "name" = VStr name → name ≠ "" →
            oo_name (outputOptions cfg) = VStr (camelcase env name))).
Proof.
  intros H. unfold createConfig in H.
  apply bind_Ok_inv in H as (outFilename & _ & H).
  apply bind_Ok_inv in H as (file & _ & H).
  apply bind_Ok_inv in H as (jsPlugin & _ & H).
  apply bind_Ok_inv in H as (declared & _ & H).
  apply bind_Ok_inv in H as (external & _ & H).
  apply bind_Ok_inv in H as (userPlugins & _ & H).
  apply Ok_inj in H as <-. cbn [outputOptions oo_name]. split.
  - intros Hformat. apply String.eqb_neq in Hformat. by rewrite Hformat.
  - intros ->. cbn [String.eqb Ascii.eqb Bool.eqb]. unfold getModuleName.
    split.
    + intros Hoption. unfold Js.or at 1. by rewrite Hoption.
    + intros Hoption Hpkg name Hname Hne. unfold Js.or, Js.and.
      rewrite Hoption, Hpkg, Hname. cbn [Js.truthy Js.to_string].
      apply String.eqb_neq in Hne. by rewrite Hne.
Qed.

Lemma createConfig_umd_name_witness :
  oo_name (outputOptions packaged_config) = VStr "my-lib".
Proof.
  apply (proj2 (proj2 (createConfig_umd_name sample_env packaged_instance
                         sample_task packaged_config
                         ltac:(vm_compute; reflexivity))
                  ltac:(vm_compute; reflexivity))
           ltac:(vm_compute; reflexivity) ltac:(vm_compute; reflexivity)
           "my-lib" ltac:(vm_compute; reflexivity) ltac:(discriminate)).
Defined.

(** ** Warnings, the size report and the static entry points *)

(** X19: the warning handler prints nothing exactly when the [quiet]
    option is set or the warning's code is [UNRESOLVED_IMPORT] or
    [THIS_IS_UNDEFINED]; otherwise it prints one line, and a second one
    exactly when the warning has a location and a non-empty frame. *)
Theorem onwarn_silenced (env : Env) (self : Bili) (w : Warning) :
  let silenced :=
    Js.truthy (opt self "quiet") = true ∨
    w_code w = Some "UNRESOLVED_IMPORT" ∨
    w_code w = Some "THIS_IS_UNDEFINED" in
  (onwarn env self w = [] ↔ silenced) ∧
  (¬ silenced →
   (length (onwarn env self w) = 2%nat ↔
    is_Some (w_loc w) ∧ ∃ frame, w_frame w = Some frame ∧ frame ≠ "") ∧
   (1 ≤ length (onwarn env self w) ≤ 2)%nat).
Proof.
  intros silenced. unfold onwarn.
  destruct (Js.truthy (opt self "quiet")) eqn:Hquiet; cbn [orb].
  { split; [split; [by left|done]|]. intros []. by left. }
  destruct (bool_decide (w_code w = Some "UNRESOLVED_IMPORT")) eqn:Hu;
    cbn [orb].
  { apply bool_decide_eq_true_1 in Hu.
    split; [split; [by right; left|done]|]. intros []. by right; left. }
  destruct (bool_decide (w_code w = Some "THIS_IS_UNDEFINED")) eqn:Ht.
  { apply bool_decide_eq_true_1 in Ht.
    split; [split; [by right; right|done]|]. intros []. by right; right. }
  apply bool_decide_eq_false_1 in Hu, Ht.
  assert (¬ silenced) as Hloud by (intros [?|[?|?]]; done).
  split.
  { split; [|done]. by destruct (w_loc w). }
  intros _. destruct (w_loc w) as [loc|].
  - destruct (w_frame w) as [frame|].
    + destruct (String.eqb frame "") eqn:Hframe; cbn [negb length].
      * apply String.eqb_eq in Hframe as ->.
        split; [|lia]. split; [done|]. by intros [_ (? & [= <-] & ?)].
      * apply String.eqb_neq in Hframe.
        split; [|lia]. split; [|done]. intros _. split; [done|by exists frame].
    + cbn [length]. split; [|lia]. split; [done|]. by intros [_ (? & ? & _)].
  - cbn [length]. split; [|lia]. split; [done|]. by intros [[] _].
Qed.

Lemma onwarn_silenced_witness :
  (length (onwarn sample_env (new_Bili sample_env no_options)
             (mkWarning (Some (mkLocation "src/index.js" 3 7))
                        (Some "3: import x") "x is not exported"
                        (Some "MISSING_EXPORT"))) = 2%nat ↔
   is_Some (Some (mkLocation "src/index.js" 3 7)) ∧
   ∃ frame, Some "3: import x" = Some frame ∧ frame ≠ "") ∧
  (1 ≤ length (onwarn sample_env (new_Bili sample_env no_options)
                 (mkWarning (Some (mkLocation "src/index.js" 3 7))
                            (Some "3: import x") "x is not exported"
                            (Some "MISSING_EXPORT"))) ≤ 2)%nat.
Proof.
  apply (proj2 (onwarn_silenced sample_env (new_Bili sample_env no_options)
                  (mkWarning (Some (mkLocation "src/index.js" 3 7))
                             (Some "3: import x") "x is not exported"
                             (Some "MISSING_EXPORT")))).
  vm_compute. intros [H|[H|H]]; discriminate.
Defined.

Lemma units_leb_total (u v : list N) :
  units_leb u v = true ∨ units_leb v u = true.
Proof.
  revert v. induction u as [|x u IH]; intros [|y v]; cbn [units_leb]; auto.
  destruct (N.ltb_spec x y); [by left|].
  destruct (N.ltb_spec y x); [by right|].
  assert (x = y) as -> by lia. rewrite N.eqb_refl. cbn [orb andb]. apply IH.
Qed.

Lemma units_leb_trans (u v w : list N) :
  units_leb u v = true → units_leb v w = true → units_leb u w = true.
Proof.
  revert v w. induction u as [|x u IH]; intros [|y v] [|z w];
    cbn [units_leb]; try done.
  intros H1 H2. apply orb_true_iff in H1, H2. apply orb_true_iff.
  destruct H1 as [H1%N.ltb_lt|[H1%N.eqb_eq Hu]%andb_true_iff],
           H2 as [H2%N.ltb_lt|[H2%N.eqb_eq Hv]%andb_true_iff].
  - left. apply N.ltb_lt. lia.
  - left. apply N.ltb_lt. lia.
  - left. apply N.ltb_lt. lia.
  - right. apply andb_true_iff. split; [apply N.eqb_eq; lia|by eapply IH].
Qed.

Lemma sort_le_total : Total sort_le.
Proof. intros s1 s2. apply units_leb_total. Qed.

Lemma sort_le_transitive : Transitive sort_le.
Proof. intros s1 s2 s3. apply units_leb_trans. Qed.

(** The length and the order are those of UTF-16 code units. *)
Example code_unit_samples :
  js_length "é" = 1%nat ∧ js_length "🙋" = 2%nat ∧
  sort_le "Z" "a" ∧ sort_le "dist/a" "dist/a.js" ∧ ¬ sort_le "b" "a".
Proof. repeat split; try done; by vm_compute. Qed.

(** X20: the size report has the header row and one row per artifact,
    the rows in ascending order of the artifacts' paths by code units;
    each row shows the relative path, the size of the code in code units
    and the size of the compressed code of the artifact at that path. *)
Theorem stats_rows_sorted (env : Env) (r : Render) (self : Bili) :
  let paths := sorted_paths (bundles self) in
  StronglySorted sort_le paths ∧
  NoDup paths ∧
  (∀ filepath, filepath ∈ paths ↔ is_Some (bundles self !! filepath)) ∧
  length (stats_rows env r self) = S (size (bundles self)) ∧
  stats_rows env r self !! 0%nat
  = Some [chalk_bold r "file"; chalk_bold r "size"; chalk_bold r "gzip size"] ∧
  (∀ i filepath, paths !! i = Some filepath →
     ∃ record,
       bundles self !! filepath = Some record ∧
       stats_rows env r self !! S i
       = Some [art_relative record;
               prettyBytes r (js_length (art_code record));
               chalk_green env
                 (prettyBytes r (gzipSize r (art_code record)))]).
Proof.
  intros paths.
  assert (paths ≡ₚ (map_to_list (bundles self)).*1) as Hperm
    by apply merge_sort_Permutation.
  assert (∀ filepath, filepath ∈ paths ↔ is_Some (bundles self !! filepath))
    as Hin.
  { intros filepath. rewrite Hperm, list_elem_of_fmap. split.
    - intros ([k v] & -> & Hkv). apply elem_of_map_to_list in Hkv.
      by exists v.
    - intros [v Hv]. exists (filepath, v). split; [done|].
      by apply elem_of_map_to_list. }
  split.
  { apply (@StronglySorted_merge_sort _ sort_le sort_le_dec
             sort_le_transitive sort_le_total). }
  split; [rewrite Hperm; apply NoDup_fst_map_to_list|].
  split; [done|]. split; [|split; [reflexivity|]].
  - unfold stats_rows. cbn [length]. fold paths.
    by rewrite length_fmap, Hperm, length_fmap, length_map_to_list.
  - intros i filepath Hi.
    destruct (proj1 (Hin filepath)) as [record Hrecord];
      [by eapply list_elem_of_lookup_2|].
    exists record. split; [done|].
    unfold stats_rows. rewrite lookup_cons. fold paths.
    by rewrite list_lookup_fmap, Hi; cbn; rewrite Hrecord.
Qed.

(** X21: [Bili.write] returns what a writing build on a new instance
    gives and passes the size report of that instance to [console.log]
    exactly when the build completes and the [watch] option of its
    argument is falsy; called without an argument it never completes and
    does not log the report. *)
Theorem Bili_write_report (env : Env) (r : Render)
    (options : gmap string JsVal) :
  let out := bundle env (new_Bili env options) true in
  (Bili_write env r (Some options)).1 = out ∧
  ((Bili_write env r (Some options)).2 = Some (stats env r (instance out)) ↔
   completion out = Ok () ∧ Js.truthy (Js.get options "watch") = false) ∧
  ((Bili_write env r (Some options)).2 = None ↔
   ¬ (completion out = Ok () ∧ Js.truthy (Js.get options "watch") = false)) ∧
  completion (Bili_write env r None).1 ≠ Ok () ∧
  (Bili_write env r None).2 = None.
Proof.
  intros out. unfold Bili_write. cbn [default from_option id].
  change (bundle env (new_Bili env options) true) with out. clearbody out.
  set (out0 := bundle env (new_Bili env ∅) true). clearbody out0.
  destruct (completion out) as [[]|e] eqn:Hout,
           (Js.truthy (Js.get options "watch")) eqn:Hwatch;
    destruct (completion out0) as [[]|e0] eqn:Hout0;
    cbn [fst snd negb completion]; rewrite ?Hout0;
    repeat split; try done; try tauto; try (by intros [? ?]);
    by intros _ [? ?].
Qed.

(** ** Names and input patterns *)

(** X22: the name taken from an input path holds no slash, and with the
    extension of the path appended it is the last component of the
    path. *)
Theorem getNameFromInput_component (input : string) :
  Str.has_char Str.slash (getNameFromInput input) = false ∧
  getNameFromInput input +:+ Path.extname input = Path.basename input "".
Proof.
  split; [apply last_component_no_slash|apply basename_extname_split].
Qed.

(** X23: the patterns handed to the glob resolver are never falsy and
    never an empty array: without a usable [input] option they are
    [src/index.js]. *)
Theorem input_patterns_never_empty (self : Bili) :
  Js.truthy (input_patterns self) = true ∧
  input_patterns self ≠ VArr [] ∧
  (Js.truthy (opt self "input") = false ∨ opt self "input" = VArr [] →
   input_patterns self = VStr "src/index.js").
Proof.
  unfold input_patterns, Js.or.
  destruct (Js.truthy (opt self "input")) eqn:Htruthy.
  - destruct (opt self "input") as [| | | | |[|x l]|]; cbn in *;
      repeat split; try done; intros [|]; done.
  - repeat split; try done.
Qed.

Lemma input_patterns_never_empty_witness :
  input_patterns (new_Bili sample_env no_options) = VStr "src/index.js".
Proof.
  apply (proj2 (proj2 (input_patterns_never_empty
                         (new_Bili sample_env no_options)))).
  left. vm_compute. reflexivity.
Defined.
